(** * cstr_controller.py: the closed-loop CSTR simulator

    A shallow embedding of [send_data_to_kafka], [receive_tc_from_kafka] and
    [simulate_cstr] of [dockerized_refactor/python-script/cstr_controller.py],
    and the properties of the publish / await-command loop.

    Python values are modelled by an inductive type, IEEE binary64 numbers by
    [spec_float], and the effects of the script (the Kafka producer and
    consumer, the logger, the health-check file, the arrays the caller hands
    to [simulate_cstr]) by a state-and-exception monad over a [world]. *)

From Stdlib Require Import ZArith.
From Stdlib Require Import Floats.SpecFloat.
From stdpp Require Import base tactics option list strings.

Set Warnings "-register-all".

Local Open Scope Z_scope.
Local Open Scope nat_scope.

(** ** Binary64 numbers *)

Module Float64.

Definition float : Type := spec_float.

Definition prec : Z := 53.
Definition emax : Z := 1024.

(** [float(z)] for a Python int [z], rounding to nearest even. *)
Definition of_Z (z : Z) : float := binary_normalize prec emax z 0 false.

Definition mul : float -> float -> float := SFmul prec emax.

Definition one : float := of_Z 1.
Definition zero : float := S754_zero false.
Definition inf : float := S754_infinity false.
Definition nan : float := S754_nan.

(** [np.isnan] on a float. *)
Definition isnan (x : float) : bool :=
  match x with
  | S754_nan => true
  | _ => false
  end.

(** A finite real number: neither an infinity nor NaN. *)
Definition isfinite (x : float) : bool :=
  match x with
  | S754_zero _ | S754_finite _ _ _ => true
  | S754_infinity _ | S754_nan => false
  end.

End Float64.

Abbreviation float := Float64.float.

(** ** Python values and exceptions *)

(** What [json.loads] can produce, which is also what [message.value] and the
    result of [receive_tc_from_kafka] range over.  A [dict] lists its entries
    in insertion order. *)
Inductive pyval : Type :=
| PNone
| PBool (b : bool)
| PInt (z : Z)
| PFloat (f : float)
| PStr (s : string)
| PList (l : list pyval)
| PDict (d : list (string * pyval)).

Inductive exn : Type :=
| KeyError
| JSONDecodeError
| TypeError
| ValueError
| IndexError
| OverflowError
| RecursionError
| RuntimeError.

Inductive outcome (A : Type) : Type :=
| Ret (a : A)
| Raise (e : exn).
Arguments Ret {A} a.
Arguments Raise {A} e.

Definition is_ret {A} (r : outcome A) : bool :=
  match r with Ret _ => true | Raise _ => false end.

(** [d[k]] on a dict. *)
Fixpoint dict_get (d : list (string * pyval)) (k : string) : option pyval :=
  match d with
  | [] => None
  | (k', v) :: d' => if bool_decide (k' = k) then Some v else dict_get d' k
  end.

(** [value[k]] for a string key [k]: only a dict can be subscripted by a
    string; a missing key is a KeyError, any other receiver a TypeError. *)
Definition getitem_str (value : pyval) (k : string) : outcome pyval :=
  match value with
  | PDict d =>
      match dict_get d k with
      | Some v => Ret v
      | None => Raise KeyError
      end
  | _ => Raise TypeError
  end.

(** ** The world the script acts on *)

(** One step of the inbound channel as the consumer's iterator sees it.
    Records that [consumer.poll] fetches and drops never reach the iterator
    and are no steps of the channel. *)
Inductive inbound : Type :=
| Record (value : pyval)
    (** a record; [value] is what the consumer's [value_deserializer] made of
        its payload ([None] for an empty payload) *)
| Garbled (e : exn)
    (** a record on whose payload the [value_deserializer] raises [e]
        (JSONDecodeError when the payload is not JSON): the exception leaves
        the iterator *)
| Idle
    (** [consumer_timeout_ms] elapsed without a record: the iterator stops *).

Inductive level : Type := DEBUG | INFO | WARNING | ERROR.

(** The log records of the script, by source line. *)
Inductive logmsg : Type :=
| SentData (ca temp : float)                    (* line 37 *)
| AttemptedNaN (ca temp : float)                (* line 43 *)
| Waiting                                       (* line 47 *)
| RawMessage (value : pyval)                    (* line 50 *)
| ReceivedMessage (value : pyval)               (* line 52 *)
| ReceivedNaN (value : pyval)                   (* line 60 *)
| ErrorProcessing (e : exn)                     (* line 62 *)
| EmptyMessage                                  (* line 64 *)
| AttemptFailed (n : nat)                       (* line 65 *)
| ExitingAfter5                                 (* line 67 *)
| Entered                                       (* line 112 *)
| CallingOdeint (i : nat) (x0 : list float) (ui1 Tf Caf : float) (* line 117 *)
| IterationResult (i : nat) (ca temp tc : float) (* line 132 *)
| SendingData                                   (* line 135 *)
| ReceivedNewTc (tc : pyval)                    (* line 141 *)
| NoValidTc                                     (* line 144 *).

(** What the script does to the outside, in order. *)
Inductive event : Type :=
| Log (l : level) (m : logmsg)
| ProducerSend (ca temp : float)
    (** [producer.send('cstr_data', value={"Ca": ca, "Reactor_Temperature": temp})] *)
| ProducerFlush
| WriteHealthcheck
    (** [open("/healthcheck", "w")] and the write *)
| ConsumerPoll
    (** [consumer.poll(timeout_ms=5000)], its records dropped *)
| Odeint (x0 : list float) (t0 t1 : float) (ui1 Tf Caf : float)
    (** [odeint(cstr, x0, [t0, t1], args=(ui1, Tf, Caf))] *).

Record world : Type := World {
  w_consumer : list inbound;   (** what the consumer's iterator will yield *)
  w_healthcheck : bool;        (** does the file /healthcheck exist *)
  w_u : list float;            (** the caller's array [u] *)
  w_x0 : list float;           (** the caller's list [x0] *)
  w_trace : list event         (** the effects so far, oldest first *)
}.

Definition set_consumer (c : list inbound) (w : world) : world :=
  World c (w_healthcheck w) (w_u w) (w_x0 w) (w_trace w).
Definition set_healthcheck (b : bool) (w : world) : world :=
  World (w_consumer w) b (w_u w) (w_x0 w) (w_trace w).
Definition set_u (u : list float) (w : world) : world :=
  World (w_consumer w) (w_healthcheck w) u (w_x0 w) (w_trace w).
Definition set_x0 (x0 : list float) (w : world) : world :=
  World (w_consumer w) (w_healthcheck w) (w_u w) x0 (w_trace w).
Definition add_event (e : event) (w : world) : world :=
  World (w_consumer w) (w_healthcheck w) (w_u w) (w_x0 w) (w_trace w ++ [e]).

(** ** The monad: state passing with Python exceptions *)

Definition M (A : Type) : Type := world -> outcome A * world.

#[global] Instance M_ret : MRet M := fun A a w => (Ret a, w).

#[global] Instance M_bind : MBind M := fun A B f m w =>
  match m w with
  | (Ret a, w') => f a w'
  | (Raise e, w') => (Raise e, w')
  end.

Definition raise {A} (e : exn) : M A := fun w => (Raise e, w).

Definition lift {A} (r : outcome A) : M A := fun w => (r, w).

Definition gets {A} (f : world -> A) : M A := fun w => (Ret (f w), w).

Definition modify (f : world -> world) : M unit := fun w => (Ret tt, f w).

Definition emit (e : event) : M unit := modify (add_event e).

(** [try: body  except <catches> as e: handler e]. *)
Definition try_except {A} (body : M A) (catches : exn -> bool)
    (handler : exn -> M A) : M A := fun w =>
  match body w with
  | (Raise e, w') => if catches e then handler e w' else (Raise e, w')
  | r => r
  end.

(** ** Arrays and lists indexed from Python *)

(** [l[i]] for [0 <= i]. *)
Definition getitem (l : list float) (i : nat) : outcome float :=
  match l !! i with
  | Some x => Ret x
  | None => Raise IndexError
  end.

(** [l[i] = x] for [0 <= i]: out of range raises, the length never changes. *)
Definition setitem (l : list float) (i : nat) (x : float) : outcome (list float) :=
  if decide (i < length l) then Ret (<[i:=x]> l) else Raise IndexError.

(** ** The script *)

Section Script.

(** The library calls whose results the script relies on. *)

(** [json.loads] on a [str]: the value the text decodes to, or the exception
    the call raises -- JSONDecodeError on a text that is not JSON, and on some
    texts another one: RecursionError on a nesting that is too deep,
    ValueError on an integer of too many digits. *)
Variable json_loads : string -> outcome pyval.

(** The truth value Python takes from [np.isnan(l)] for a list [l], or the
    exception on the way (it depends on the shape and on the element types). *)
Variable np_isnan_list : list pyval -> outcome bool.

(** What storing a non-numeric object into a float64 array makes of it. *)
Variable np_float64_of_object : pyval -> outcome float.

(** [odeint(cstr, x0, [t0, t1], args=(ui1, Tf, Caf))]: the last row [y[-1]]
    of the solution as [(y[-1][0], y[-1][1])], or the exception it raises. *)
Variable odeint :
  list float -> float -> float -> float -> float -> float -> outcome (float * float).

(** *** Library behaviour on the values of the script *)

(** [np.isnan(v)] as a truth value.  Floats are tested; bools and ints that
    fit 64 bits are cast to floats and are never NaN; larger ints, [None],
    strings and dicts become object arrays, on which the ufunc raises. *)
Definition np_isnan (v : pyval) : outcome bool :=
  match v with
  | PFloat f => Ret (Float64.isnan f)
  | PBool _ => Ret false
  | PInt z =>
      if bool_decide (- 2 ^ 63 <= z < 2 ^ 64)%Z then Ret false else Raise TypeError
  | PList l => np_isnan_list l
  | PNone | PStr _ | PDict _ => Raise TypeError
  end.

(** The float64 that [a[i] = v] stores into a float64 array. *)
Definition np_float64 (v : pyval) : outcome float :=
  match v with
  | PFloat f => Ret f
  | PBool b => Ret (if b then Float64.one else Float64.zero)
  | PInt z =>
      if Float64.isfinite (Float64.of_Z z) then Ret (Float64.of_Z z)
      else Raise OverflowError
  | _ => np_float64_of_object v
  end.

(** *** send_data_to_kafka (lines 29-43) *)

Definition send_data_to_kafka (ca temp_reactor : float) : M unit :=
  if negb (Float64.isnan ca) && negb (Float64.isnan temp_reactor) then
    emit (ProducerSend ca temp_reactor);;
    emit ProducerFlush;;
    emit (Log INFO (SentData ca temp_reactor));;
    isfile ← gets w_healthcheck;
    if negb isfile then
      emit WriteHealthcheck;;
      modify (set_healthcheck true)
    else mret tt
  else
    emit (Log ERROR (AttemptedNaN ca temp_reactor)).

(** *** receive_tc_from_kafka (lines 46-68) *)

(** The clause [except (KeyError, json.JSONDecodeError)]. *)
Definition caught (e : exn) : bool :=
  match e with
  | KeyError | JSONDecodeError => true
  | _ => false
  end.

(** The body of the inner loop (lines 50-64) on one message; [Some tc] is
    [return tc], [None] falls through to the next message. *)
Definition process_message (message_value : pyval) : M (option pyval) :=
  emit (Log DEBUG (RawMessage message_value));;
  match message_value with
  | PNone =>
      emit (Log WARNING EmptyMessage);;
      mret None
  | _ =>
      emit (Log INFO (ReceivedMessage message_value));;
      try_except
        (value ← match message_value with
                 | PStr s => lift (json_loads s)
                 | _ => mret message_value
                 end;
         tc ← lift (getitem_str value "Tc");
         nan ← lift (np_isnan tc);
         if negb nan then mret (Some tc)
         else
           emit (Log ERROR (ReceivedNaN value));;
           mret None)
        caught
        (fun e => emit (Log ERROR (ErrorProcessing e));; mret None)
  end.

(** [for message in consumer: ...] (lines 49-64) on the pending steps.  The
    iterator hands over one record at a time and stops at an idle timeout.
    The pending steps are a finite list: a channel whose list is used up has
    gone silent, and the iterator stops at the timeout.  A stream of records
    that never pauses, on which the loop of line 49 does not end, is no value
    of this type; a property that says that a call returns on every channel
    of some kind therefore names the idle timeouts it relies on. *)
Fixpoint poll_messages (pending : list inbound) : M (option pyval) :=
  match pending with
  | [] => mret None
  | Idle :: rest =>
      modify (set_consumer rest);;
      mret None
  | Garbled e :: rest =>
      modify (set_consumer rest);;
      raise e
  | Record value :: rest =>
      modify (set_consumer rest);;
      r ← process_message value;
      match r with
      | Some tc => mret (Some tc)
      | None => poll_messages rest
      end
  end.

Definition for_message_in_consumer : M (option pyval) :=
  pending ← gets w_consumer;
  poll_messages pending.

(** [for attempt in range(5): ...] (lines 48-66) over the attempt numbers
    still to come. *)
Fixpoint attempts (range : list nat) : M (option pyval) :=
  match range with
  | [] => mret None
  | attempt :: range' =>
      r ← for_message_in_consumer;
      match r with
      | Some tc => mret (Some tc)
      | None =>
          emit (Log INFO (AttemptFailed (attempt + 1)));;
          emit ConsumerPoll;;
          attempts range'
      end
  end.

Definition receive_tc_from_kafka : M pyval :=
  emit (Log INFO Waiting);;
  r ← attempts (seq 0 5);
  match r with
  | Some tc => mret tc
  | None =>
      emit (Log INFO ExitingAfter5);;
      mret PNone
  end.

(** *** simulate_cstr (lines 111-147) *)

(** Lines 116-136: integrate over [t[i], t[i+1]], store the new state in
    [Ca], [T] and [x0], publish it. *)
Definition integrate_and_publish (Tf Caf : float) (t : list float) (i : nat)
    (CaT : list float * list float) : M (list float * list float) :=
  let '(Ca, T) := CaT in
  t_i ← lift (getitem t i);
  t_i1 ← lift (getitem t (i + 1));
  x0 ← gets w_x0;
  u ← gets w_u;
  u_i1 ← lift (getitem u (i + 1));
  emit (Log INFO (CallingOdeint i x0 u_i1 Tf Caf));;
  emit (Odeint x0 t_i t_i1 u_i1 Tf Caf);;
  y ← lift (odeint x0 t_i t_i1 u_i1 Tf Caf);
  Ca ← lift (setitem Ca (i + 1) y.1);
  T ← lift (setitem T (i + 1) y.2);
  ca ← lift (getitem Ca (i + 1));
  x0 ← lift (setitem x0 0 ca);
  modify (set_x0 x0);;
  temp ← lift (getitem T (i + 1));
  x0 ← lift (setitem x0 1 temp);
  modify (set_x0 x0);;
  u_i1 ← lift (getitem u (i + 1));
  emit (Log INFO (IterationResult i ca temp u_i1));;
  emit (Log INFO SendingData);;
  send_data_to_kafka ca temp;;
  mret (Ca, T).

(** Lines 139-145: wait for a command and store it. *)
Definition await_command (i : nat) : M unit :=
  tc ← receive_tc_from_kafka;
  match tc with
  | PNone => emit (Log ERROR NoValidTc)
  | _ =>
      emit (Log INFO (ReceivedNewTc tc));;
      x ← lift (np_float64 tc);
      u ← gets w_u;
      u ← lift (setitem u (i + 1) x);
      modify (set_u u)
  end.

(** The body of the loop for one [i]. *)
Definition simulate_body (Tf Caf : float) (t : list float) (i : nat)
    (CaT : list float * list float) : M (list float * list float) :=
  CaT ← integrate_and_publish Tf Caf t i CaT;
  await_command i;;
  mret CaT.

(** [for i in range(len(t) - 1): ...] over the indices still to come. *)
Fixpoint simulate_loop (Tf Caf : float) (t : list float) (range : list nat)
    (CaT : list float * list float) : M (list float * list float) :=
  match range with
  | [] => mret CaT
  | i :: range' =>
      CaT ← simulate_body Tf Caf t i CaT;
      simulate_loop Tf Caf t range' CaT
  end.

Definition simulate_cstr (Tf Caf : float) (t : list float)
    : M (list float * list float) :=
  emit (Log INFO Entered);;
  x0 ← gets w_x0;
  x0_0 ← lift (getitem x0 0);
  x0_1 ← lift (getitem x0 1);
  let Ca := replicate (length t) (Float64.mul Float64.one x0_0) in
  let T := replicate (length t) (Float64.mul Float64.one x0_1) in
  simulate_loop Tf Caf t (seq 0 (length t - 1)) (Ca, T).

End Script.

(** ** Vocabulary of the properties *)

(** *** Relations a computation keeps between the world before and after *)

Definition keeps {A} (R : relation world) (m : M A) : Prop :=
  forall w, R w (m w).2.

(** The field [f] of the world is left as it is. *)
Definition same {B} (f : world -> B) : relation world :=
  fun w w' => f w' = f w.

(** The trace is extended, and only by events of the class [c]. *)
Definition grows (c : event -> bool) : relation world :=
  fun w w' => exists evs, w_trace w' = w_trace w ++ evs /\ Forall (fun e => c e = true) evs.

(** *** Classes of events *)

(** Events of the publisher. *)
Definition publisher_event (e : event) : bool :=
  match e with
  | Log _ _ | ProducerSend _ _ | ProducerFlush | WriteHealthcheck => true
  | _ => false
  end.

(** Events of the receiver. *)
Definition receiver_event (e : event) : bool :=
  match e with
  | Log _ _ | ConsumerPoll => true
  | _ => false
  end.

(** The log records of lines 50-64, written while a message is looked at. *)
Definition message_event (e : event) : bool :=
  match e with
  | Log _ (RawMessage _ | ReceivedMessage _ | ReceivedNaN _
          | ErrorProcessing _ | EmptyMessage) => true
  | _ => false
  end.

(** *** What the trace shows *)

(** The control inputs handed to the solver, call by call. *)
Definition inputs_used (tr : list event) : list float :=
  omap (fun e => match e with Odeint _ _ _ ui1 _ _ => Some ui1 | _ => None end) tr.

(** The time spans handed to the solver, call by call. *)
Definition spans_integrated (tr : list event) : list (float * float) :=
  omap (fun e => match e with Odeint _ t0 t1 _ _ _ => Some (t0, t1) | _ => None end) tr.

(** The telemetry messages sent. *)
Definition sent (tr : list event) : list (float * float) :=
  omap (fun e => match e with ProducerSend ca temp => Some (ca, temp) | _ => None end) tr.

(** How often the health-check file was written. *)
Definition marker_writes (tr : list event) : nat :=
  length (omap (fun e => match e with WriteHealthcheck => Some tt | _ => None end) tr).

(** The attempts reported as failed (line 65). *)
Definition failed_attempts (tr : list event) : list nat :=
  omap (fun e => match e with Log INFO (AttemptFailed n) => Some n | _ => None end) tr.

(** How often [consumer.poll] was called (line 66). *)
Definition polls (tr : list event) : nat :=
  length (omap (fun e => match e with ConsumerPoll => Some tt | _ => None end) tr).

(** The events a computation adds to the trace. *)
Definition new_events (w w' : world) : list event :=
  drop (length (w_trace w)) (w_trace w').

(** The guard of line 30. *)
Definition sendable (ca temp : float) : bool :=
  negb (Float64.isnan ca) && negb (Float64.isnan temp).

(** *** Which slots of [u] a computation may write *)

(** The array keeps its length, and every slot outside [slots] its value. *)
Definition writes_only (slots : nat -> Prop) : relation world :=
  fun w w' =>
    length (w_u w') = length (w_u w) /\
    forall k, ~ slots k -> w_u w' !! k = w_u w !! k.

(** *** The control input a step is integrated with *)

(** The list [x0] as iteration [i] finds it, in a run that began with [x0]
    and has filled the arrays [Ca] and [T]: the caller's list in iteration 0,
    afterwards that list with [(Ca[i], T[i])] in its first two entries
    (lines 129-130). *)
Definition state_before (x0 Ca T : list float) (i : nat) : option (list float) :=
  match i with
  | 0 => Some x0
  | S _ =>
      match Ca !! i, T !! i with
      | Some ca, Some temp => Some (<[1 := temp]> (<[0 := ca]> x0))
      | _, _ => None
      end
  end.

(** Step [i] of a run that began with the control inputs [u] and the state
    [x0] and has filled the arrays [Ca] and [T] was integrated one step
    ahead: the solver, called on the state before the step, on the span from
    [t[i]] to [t[i+1]] and on the control input [u[i+1]], has returned the
    state stored at [Ca[i+1]] and [T[i+1]]. *)
Definition integrated_one_step_ahead
    (odeint : list float -> float -> float -> float -> float -> float ->
              outcome (float * float))
    (Tf Caf : float) (t u x0 Ca T : list float) (i : nat) : Prop :=
  exists x t_i t_i1 u_i1 ca temp,
    state_before x0 Ca T i = Some x /\
    t !! i = Some t_i /\ t !! (i + 1) = Some t_i1 /\ u !! (i + 1) = Some u_i1 /\
    odeint x t_i t_i1 u_i1 Tf Caf = Ret (ca, temp) /\
    Ca !! (i + 1) = Some ca /\ T !! (i + 1) = Some temp.

(** *** The inbound channel and its messages *)

(** The idle timeouts among the pending records. *)
Fixpoint count_idle (pending : list inbound) : nat :=
  match pending with
  | [] => 0
  | Idle :: rest => S (count_idle rest)
  | _ :: rest => count_idle rest
  end.

(** What is pending after the next idle timeout. *)
Fixpoint after_idle (pending : list inbound) : list inbound :=
  match pending with
  | [] => []
  | Idle :: rest => rest
  | _ :: rest => after_idle rest
  end.

(** What is pending after the next [k] idle timeouts. *)
Fixpoint after_idles (k : nat) (pending : list inbound) : list inbound :=
  match k with
  | 0 => pending
  | S k' => after_idles k' (after_idle pending)
  end.

Section Messages.

Variable json_loads : string -> outcome pyval.
Variable np_isnan_list : list pyval -> outcome bool.

(** The object lines 54-56 look into: the message value itself, or what a
    [str] value decodes to. *)
Definition decodes_to (message_value value : pyval) : Prop :=
  match message_value with
  | PNone => False
  | PStr s => json_loads s = Ret value
  | _ => value = message_value
  end.

(** The message holds the control value [tc]: an object with an entry "Tc"
    on which [np.isnan] answers false. *)
Definition carries (message_value tc : pyval) : Prop :=
  exists value d,
    decodes_to message_value value /\ value = PDict d /\
    dict_get d "Tc" = Some tc /\ np_isnan np_isnan_list tc = Ret false.

(** The messages the receiver logs and skips: a null value, a [str] on which
    [json.loads] raises JSONDecodeError, an object without "Tc", an object
    whose "Tc" is NaN. *)
Definition ignorable (message_value : pyval) : Prop :=
  message_value = PNone \/
  (exists s, message_value = PStr s /\ json_loads s = Raise JSONDecodeError) \/
  (exists value d,
     decodes_to message_value value /\ value = PDict d /\
     (dict_get d "Tc" = None \/
      exists tc, dict_get d "Tc" = Some tc /\ np_isnan np_isnan_list tc = Ret true)).

(** A step of the channel that no attempt can end on with a value or an
    exception. *)
Definition harmless (m : inbound) : Prop :=
  match m with
  | Idle => True
  | Record value => ignorable value
  | Garbled _ => False
  end.

(** The outcome of [process_message] as a function of the message. *)
Definition verdict (message_value : pyval) : outcome (option pyval) :=
  let look (value : pyval) : outcome (option pyval) :=
    match getitem_str value "Tc" with
    | Ret tc =>
        match np_isnan np_isnan_list tc with
        | Ret nan => Ret (if negb nan then Some tc else None)
        | Raise e => if caught e then Ret None else Raise e
        end
    | Raise e => if caught e then Ret None else Raise e
    end in
  match message_value with
  | PNone => Ret None
  | PStr s =>
      match json_loads s with
      | Ret value => look value
      | Raise e => if caught e then Ret None else Raise e
      end
  | _ => look message_value
  end.

End Messages.

(** *** The readiness marker *)

(** Was a telemetry message sent among these events. *)
Definition any_sent (evs : list event) : bool :=
  match sent evs with
  | [] => false
  | _ => true
  end.

(** Events that neither send telemetry nor write the marker. *)
Definition silent (e : event) : bool :=
  match e with
  | ProducerSend _ _ | WriteHealthcheck => false
  | _ => true
  end.

(** The marker is written at most once, by the first send that finds it
    missing, and exists from then on. *)
Definition marker_once : relation world := fun w w' =>
  exists evs,
    w_trace w' = w_trace w ++ evs /\
    w_healthcheck w' = w_healthcheck w || any_sent evs /\
    marker_writes evs = (if w_healthcheck w || negb (any_sent evs) then 0 else 1) /\
    (forall k, evs !! k = Some WriteHealthcheck -> length (sent (take k evs)) = 1).

(** *** Worked runs *)

(** Stand-ins for the library calls in the worked runs below: a decoder that
    takes no string for JSON, a numpy that refuses lists and other objects,
    and a solver that reports the end of the span as the new concentration
    and the control input it was given as the new temperature, so that the
    arguments of each call show in the published state. *)
Definition no_json (s : string) : outcome pyval := Raise JSONDecodeError.
Definition no_lists (l : list pyval) : outcome bool := Raise TypeError.
Definition no_objects (v : pyval) : outcome float := Raise TypeError.
Definition probe_solver (x0 : list float) (t0 t1 ui1 Tf Caf : float)
    : outcome (float * float) := Ret (t1, ui1).

(** The float of an integer literal. *)
Definition f64 (z : Z) : float := Float64.of_Z z.

(** The time grid [0, 1, 2]. *)
Definition grid : list float := [f64 0; f64 1; f64 2].

(** A fresh process: no health-check file, nothing in the trace; the control
    inputs [u], the state [(1, 324)] and the given inbound channel. *)
Definition fresh (u : list float) (inbound : list inbound) : world :=
  World inbound false u [f64 1; f64 324] [].

(** A record whose value is the object with the single entry "Tc". *)
Definition command (tc : pyval) : inbound := Record (PDict [("Tc", tc)]).

(** ** The reactor model *)

(** Binary64 arithmetic. *)
Definition fadd : float -> float -> float := SFadd Float64.prec Float64.emax.
Definition fsub : float -> float -> float := SFsub Float64.prec Float64.emax.
Definition fdiv : float -> float -> float := SFdiv Float64.prec Float64.emax.

Section Reactor.

(** [np.exp] on a float64. *)
Variable np_exp : float -> float.

(** cstr (lines 79-99), as [odeint] calls it: [x] is a float64 array, so [Ca]
    and [T] are numpy floats and every operation is IEEE arithmetic on
    binary64 (a division by zero gives an infinity or NaN, no exception).
    The integer constants enter the operations as the floats they convert to
    exactly; the literal 0.239 is the binary64 nearest to 239/1000, which the
    correctly rounded quotient of 239 and 1000 is. *)
Definition cstr (x : list float) (t u Tf Caf : float) : outcome (list float) :=
  match getitem x 0 with
  | Raise e => Raise e
  | Ret Ca =>
      match getitem x 1 with
      | Raise e => Raise e
      | Ret T =>
          let q := Float64.of_Z 100 in
          let V := Float64.of_Z 100 in
          let rho := Float64.of_Z 1000 in
          let Cp := fdiv (Float64.of_Z 239) (Float64.of_Z 1000) in
          let mdelH := Float64.of_Z 50000 in
          let EoverR := Float64.of_Z 8750 in
          let k0 := Float64.of_Z 72000000000 in
          let UA := Float64.of_Z 50000 in
          let rA :=
            Float64.mul (Float64.mul k0 (np_exp (fdiv (SFopp EoverR) T))) Ca in
          let dCadt := fsub (Float64.mul (fdiv q V) (fsub Caf Ca)) rA in
          let dTdt :=
            fadd (fadd (Float64.mul (fdiv q V) (fsub Tf T))
                       (Float64.mul (fdiv mdelH (Float64.mul rho Cp)) rA))
                 (Float64.mul (fdiv (fdiv (fdiv UA V) rho) Cp) (fsub u T)) in
          Ret [dCadt; dTdt]
      end
  end.

End Reactor.

(** ** Vocabulary of the further properties *)

(** A value that cannot be subscripted by a key. *)
Definition not_an_object (value : pyval) : Prop :=
  match value with
  | PDict _ => False
  | _ => True
  end.

(** A solver that fails, for the worked runs. *)
Definition failing_solver (x0 : list float) (t0 t1 ui1 Tf Caf : float)
    : outcome (float * float) := Raise RuntimeError.

(** A stand-in for [np.exp] in the worked runs. *)
Definition unit_exp (x : float) : float := Float64.one.

(** A decoder that gives up on the nesting of every text, for the worked
    runs. *)
Definition deep_json (s : string) : outcome pyval := Raise RecursionError.

(** The states handed to the solver, call by call. *)
Definition states_given (tr : list event) : list (list float) :=
  omap (fun e => match e with Odeint x0 _ _ _ _ _ => Some x0 | _ => None end) tr.

(** Every telemetry message among the events is followed at once by the
    flush of the producer. *)
Definition flushed (evs : list event) : Prop :=
  forall k ca temp,
    evs !! k = Some (ProducerSend ca temp) -> evs !! (S k) = Some ProducerFlush.

(** The trace is extended by events in which every send is flushed. *)
Definition flushes : relation world := fun w w' =>
  exists evs, w_trace w' = w_trace w ++ evs /\ flushed evs.

(** What publishing the state [(ca, temp)] adds to the trace, given whether
    the health-check file exists. *)
Definition publish_events (healthcheck : bool) (ca temp : float) : list event :=
  if sendable ca temp then
    [ProducerSend ca temp; ProducerFlush; Log INFO (SentData ca temp)] ++
    (if healthcheck then [] else [WriteHealthcheck])
  else [Log ERROR (AttemptedNaN ca temp)].

(** The pairs [(Ca[k], T[k])] of two arrays that may be published. *)
Definition publishable (Ca T : list float) : list (float * float) :=
  filter (fun p => sendable p.1 p.2 = true) (zip Ca T).

(** ** Reasoning about runs *)

(** One equation per primitive of the monad. *)

Lemma run_bind {A B} (m : M A) (f : A -> M B) (w : world) :
  (m ≫= f) w =
  match m w with
  | (Ret a, w') => f a w'
  | (Raise e, w') => (Raise e, w')
  end.
Proof. reflexivity. Qed.

Lemma run_ret {A} (a : A) (w : world) : (mret a : M A) w = (Ret a, w).
Proof. reflexivity. Qed.

Lemma run_emit (e : event) (w : world) : emit e w = (Ret tt, add_event e w).
Proof. reflexivity. Qed.

Lemma run_bind_lift {A B} (r : outcome A) (f : A -> M B) (w : world) :
  (lift r ≫= f) w =
  match r with
  | Ret a => f a w
  | Raise e => (Raise e, w)
  end.
Proof. by destruct r. Qed.

Lemma run_bind_gets {A B} (g : world -> A) (f : A -> M B) (w : world) :
  (gets g ≫= f) w = f (g w) w.
Proof. reflexivity. Qed.

Lemma run_bind_emit {B} (e : event) (f : unit -> M B) (w : world) :
  (emit e ≫= f) w = f tt (add_event e w).
Proof. reflexivity. Qed.

Lemma run_bind_modify {B} (g : world -> world) (f : unit -> M B) (w : world) :
  (modify g ≫= f) w = f tt (g w).
Proof. reflexivity. Qed.

(** Run the first statement of the computation in the goal. *)
Ltac run_step :=
  first [ rewrite run_bind_lift | rewrite run_bind_gets | rewrite run_bind_emit
        | rewrite run_bind_modify | rewrite run_ret ].

(** *** The relations are preorders, and kept along the syntax *)

#[global] Instance same_preorder {B} (f : world -> B) : PreOrder (same f).
Proof.
  split.
  - by intros w.
  - intros w1 w2 w3 H12 H23. unfold same in *. congruence.
Qed.

#[global] Instance grows_preorder (c : event -> bool) : PreOrder (grows c).
Proof.
  split.
  - intros w. exists []. by rewrite app_nil_r.
  - intros w1 w2 w3 (evs & E & F) (evs' & E' & F').
    exists (evs ++ evs'). split.
    + by rewrite E', E, app_assoc.
    + by apply Forall_app.
Qed.

Lemma grows_weaken (c c' : event -> bool) (w w' : world) :
  (forall e, c e = true -> c' e = true) -> grows c w w' -> grows c' w w'.
Proof.
  intros Hc (evs & E & F). exists evs. split; [done|].
  eapply Forall_impl; [exact F|]. done.
Qed.

Section Keeps.

Context {R : relation world} `{!PreOrder R}.

Lemma keeps_ret {A} (a : A) : keeps R (mret a).
Proof. intros w. reflexivity. Qed.

Lemma keeps_raise {A} (e : exn) : keeps R (@raise A e).
Proof. intros w. reflexivity. Qed.

Lemma keeps_lift {A} (r : outcome A) : keeps R (lift r).
Proof. intros w. reflexivity. Qed.

Lemma keeps_gets {A} (f : world -> A) : keeps R (gets f).
Proof. intros w. reflexivity. Qed.

Lemma keeps_bind {A B} (m : M A) (f : A -> M B) :
  keeps R m -> (forall a, keeps R (f a)) -> keeps R (m ≫= f).
Proof.
  intros Hm Hf w. rewrite run_bind.
  specialize (Hm w). destruct (m w) as [[a|e] w1]; simpl in *; [|done].
  etrans; [exact Hm|]. apply Hf.
Qed.

Lemma keeps_try_except {A} (body : M A) (catches : exn -> bool) (handler : exn -> M A) :
  keeps R body -> (forall e, keeps R (handler e)) -> keeps R (try_except body catches handler).
Proof.
  intros Hb Hh w. unfold try_except.
  specialize (Hb w). destruct (body w) as [[a|e] w1]; simpl in *; [done|].
  destruct (catches e); [|done].
  etrans; [exact Hb|]. apply Hh.
Qed.

End Keeps.

Lemma keeps_modify_same {B} (f : world -> B) (g : world -> world) :
  (forall w, f (g w) = f w) -> keeps (same f) (modify g).
Proof. intros H w. apply H. Qed.

Lemma keeps_modify_grows (c : event -> bool) (g : world -> world) :
  (forall w, w_trace (g w) = w_trace w) -> keeps (grows c) (modify g).
Proof. intros H w. exists []. simpl. by rewrite H, app_nil_r. Qed.

Lemma keeps_emit_same {B} (f : world -> B) (e : event) :
  (forall w, f (add_event e w) = f w) -> keeps (same f) (emit e).
Proof. intros H w. apply H. Qed.

Lemma keeps_emit_grows (c : event -> bool) (e : event) :
  c e = true -> keeps (grows c) (emit e).
Proof. intros H w. exists [e]. split; [done|]. by constructor. Qed.

Lemma keeps_grows_weaken {A} (c c' : event -> bool) (m : M A) :
  (forall e, c e = true -> c' e = true) -> keeps (grows c) m -> keeps (grows c') m.
Proof. intros Hc Hm w. eapply grows_weaken; [exact Hc|apply Hm]. Qed.

Create HintDb keeps discriminated.

(** Decompose a computation along its syntax; calls of the script's functions
    are closed with the lemmas of the database [keeps]. *)
Ltac keeps_step :=
  lazymatch goal with
  | |- keeps _ (mret _) => apply keeps_ret
  | |- keeps _ (raise _) => apply keeps_raise
  | |- keeps _ (lift _) => apply keeps_lift
  | |- keeps _ (gets _) => apply keeps_gets
  | |- keeps (same _) (emit _) => apply keeps_emit_same; intros ?; reflexivity
  | |- keeps (grows _) (emit _) => apply keeps_emit_grows; reflexivity
  | |- keeps (same _) (modify _) => apply keeps_modify_same; intros ?; reflexivity
  | |- keeps (grows _) (modify _) => apply keeps_modify_grows; intros ?; reflexivity
  | |- keeps _ (_ ≫= _) => apply keeps_bind; [|intros ?]
  | |- keeps _ (try_except _ _ _) => apply keeps_try_except; [|intros ?]
  | |- keeps _ (match ?x with _ => _ end) => destruct x
  end.

Ltac keeps_auto := repeat (first [keeps_step | solve [auto with keeps]]).

Lemma omap_none_Forall {A B} (f : A -> option B) (c : A -> bool) (l : list A) :
  (forall a, c a = true -> f a = None) ->
  Forall (fun a => c a = true) l -> omap f l = [].
Proof.
  intros Hc. induction 1 as [|a l Ha _ IH]; [done|].
  simpl. by rewrite (Hc a Ha).
Qed.

Lemma new_events_app (w w' : world) (evs : list event) :
  w_trace w' = w_trace w ++ evs -> new_events w w' = evs.
Proof. intros E. unfold new_events. by rewrite E, drop_app_length. Qed.

(** ** Frame properties of the publisher and the receiver *)

Section Frames.

Variable json_loads : string -> outcome pyval.
Variable np_isnan_list : list pyval -> outcome bool.

Lemma send_keeps_u ca temp : keeps (same w_u) (send_data_to_kafka ca temp).
Proof. unfold send_data_to_kafka. keeps_auto. Qed.

Lemma send_keeps_x0 ca temp : keeps (same w_x0) (send_data_to_kafka ca temp).
Proof. unfold send_data_to_kafka. keeps_auto. Qed.

Lemma send_keeps_consumer ca temp : keeps (same w_consumer) (send_data_to_kafka ca temp).
Proof. unfold send_data_to_kafka. keeps_auto. Qed.

Lemma send_grows ca temp : keeps (grows publisher_event) (send_data_to_kafka ca temp).
Proof. unfold send_data_to_kafka. keeps_auto. Qed.

Lemma process_message_grows v :
  keeps (grows message_event) (process_message json_loads np_isnan_list v).
Proof. unfold process_message. keeps_auto. Qed.

Lemma process_message_keeps_consumer v :
  keeps (same w_consumer) (process_message json_loads np_isnan_list v).
Proof. unfold process_message. keeps_auto. Qed.

Lemma process_message_keeps_u v :
  keeps (same w_u) (process_message json_loads np_isnan_list v).
Proof. unfold process_message. keeps_auto. Qed.

Lemma process_message_keeps_x0 v :
  keeps (same w_x0) (process_message json_loads np_isnan_list v).
Proof. unfold process_message. keeps_auto. Qed.

Lemma process_message_keeps_healthcheck v :
  keeps (same w_healthcheck) (process_message json_loads np_isnan_list v).
Proof. unfold process_message. keeps_auto. Qed.

Hint Resolve process_message_grows process_message_keeps_u
  process_message_keeps_x0 process_message_keeps_healthcheck : keeps.

Lemma poll_messages_grows pending :
  keeps (grows message_event) (poll_messages json_loads np_isnan_list pending).
Proof. induction pending as [|[v| |] rest IH]; cbn [poll_messages]; keeps_auto. Qed.

Lemma poll_messages_keeps_u pending :
  keeps (same w_u) (poll_messages json_loads np_isnan_list pending).
Proof. induction pending as [|[v| |] rest IH]; cbn [poll_messages]; keeps_auto. Qed.

Lemma poll_messages_keeps_x0 pending :
  keeps (same w_x0) (poll_messages json_loads np_isnan_list pending).
Proof. induction pending as [|[v| |] rest IH]; cbn [poll_messages]; keeps_auto. Qed.

Lemma poll_messages_keeps_healthcheck pending :
  keeps (same w_healthcheck) (poll_messages json_loads np_isnan_list pending).
Proof. induction pending as [|[v| |] rest IH]; cbn [poll_messages]; keeps_auto. Qed.

Hint Resolve poll_messages_grows poll_messages_keeps_u
  poll_messages_keeps_x0 poll_messages_keeps_healthcheck : keeps.

Lemma message_is_receiver_event e : message_event e = true -> receiver_event e = true.
Proof. by destruct e. Qed.

Lemma attempts_grows range :
  keeps (grows receiver_event) (attempts json_loads np_isnan_list range).
Proof.
  induction range as [|attempt range IH]; cbn [attempts]; unfold for_message_in_consumer.
  - keeps_auto.
  - keeps_auto.
    eapply keeps_grows_weaken; [apply message_is_receiver_event|]. auto with keeps.
Qed.

Lemma attempts_keeps_u range :
  keeps (same w_u) (attempts json_loads np_isnan_list range).
Proof.
  induction range as [|attempt range IH]; cbn [attempts];
    unfold for_message_in_consumer; keeps_auto.
Qed.

Lemma attempts_keeps_x0 range :
  keeps (same w_x0) (attempts json_loads np_isnan_list range).
Proof.
  induction range as [|attempt range IH]; cbn [attempts];
    unfold for_message_in_consumer; keeps_auto.
Qed.

Lemma attempts_keeps_healthcheck range :
  keeps (same w_healthcheck) (attempts json_loads np_isnan_list range).
Proof.
  induction range as [|attempt range IH]; cbn [attempts];
    unfold for_message_in_consumer; keeps_auto.
Qed.

Hint Resolve attempts_grows attempts_keeps_u attempts_keeps_x0
  attempts_keeps_healthcheck : keeps.

Lemma receive_grows :
  keeps (grows receiver_event) (receive_tc_from_kafka json_loads np_isnan_list).
Proof. unfold receive_tc_from_kafka. keeps_auto. Qed.

Lemma receive_keeps_u :
  keeps (same w_u) (receive_tc_from_kafka json_loads np_isnan_list).
Proof. unfold receive_tc_from_kafka. keeps_auto. Qed.

Lemma receive_keeps_x0 :
  keeps (same w_x0) (receive_tc_from_kafka json_loads np_isnan_list).
Proof. unfold receive_tc_from_kafka. keeps_auto. Qed.

Lemma receive_keeps_healthcheck :
  keeps (same w_healthcheck) (receive_tc_from_kafka json_loads np_isnan_list).
Proof. unfold receive_tc_from_kafka. keeps_auto. Qed.

End Frames.

#[global] Hint Resolve send_keeps_u send_keeps_x0 send_keeps_consumer send_grows
  receive_grows receive_keeps_u receive_keeps_x0 receive_keeps_healthcheck : keeps.

(** Run the primitives of the monad in the goal. *)
Ltac run_simpl :=
  unfold mbind, M_bind, mret, M_ret, emit, modify, gets, lift, raise,
    add_event, set_consumer, set_healthcheck, set_u, set_x0;
  cbn [w_consumer w_healthcheck w_u w_x0 w_trace negb fst snd].

(** ** The telemetry publisher *)

(** [send_data_to_kafka] in closed form. *)
Lemma send_data_to_kafka_run (ca temp : float) (w : world) :
  send_data_to_kafka ca temp w =
  (Ret tt,
   if sendable ca temp then
     World (w_consumer w) true (w_u w) (w_x0 w)
       (w_trace w ++
          [ProducerSend ca temp; ProducerFlush; Log INFO (SentData ca temp)] ++
          (if w_healthcheck w then [] else [WriteHealthcheck]))
   else add_event (Log ERROR (AttemptedNaN ca temp)) w).
Proof.
  unfold send_data_to_kafka, sendable.
  destruct (negb (Float64.isnan ca) && negb (Float64.isnan temp)); [|done].
  destruct w as [c [] u x0 tr]; cbn.
  all: run_simpl; by rewrite <- ?app_assoc.
Qed.


Lemma sent_app (tr tr' : list event) : sent (tr ++ tr') = sent tr ++ sent tr'.
Proof. apply omap_app. Qed.

Lemma marker_writes_app (tr tr' : list event) :
  marker_writes (tr ++ tr') = marker_writes tr + marker_writes tr'.
Proof. unfold marker_writes. by rewrite omap_app, length_app. Qed.

Lemma send_data_to_kafka_sent (ca temp : float) (w : world) :
  sent (w_trace (send_data_to_kafka ca temp w).2) =
  sent (w_trace w) ++ (if sendable ca temp then [(ca, temp)] else []).
Proof.
  rewrite send_data_to_kafka_run. cbn [snd].
  destruct (sendable ca temp); cbn [w_trace add_event]; rewrite sent_app; [|done].
  by destruct (w_healthcheck w).
Qed.

(** ** Indexing *)

Lemma getitem_Ret (l : list float) (i : nat) (x : float) :
  getitem l i = Ret x <-> l !! i = Some x.
Proof. unfold getitem. destruct (l !! i); split; congruence. Qed.

Lemma setitem_Ret (l l' : list float) (i : nat) (x : float) :
  setitem l i x = Ret l' <-> i < length l /\ l' = <[i:=x]> l.
Proof.
  unfold setitem. destruct (decide (i < length l)); split.
  - intros [= <-]. done.
  - intros [_ ->]. done.
  - done.
  - intros [? _]. done.
Qed.

Lemma getitem_insert (l : list float) (i : nat) (x : float) :
  i < length l -> getitem (<[i:=x]> l) i = Ret x.
Proof. intros Hi. apply getitem_Ret. by apply list_lookup_insert_eq. Qed.

(** ** One iteration of the loop *)

Section Iteration.

Variable json_loads : string -> outcome pyval.
Variable np_isnan_list : list pyval -> outcome bool.
Variable np_float64_of_object : pyval -> outcome float.
Variable odeint :
  list float -> float -> float -> float -> float -> float -> outcome (float * float).

Lemma inputs_used_app (tr tr' : list event) :
  inputs_used (tr ++ tr') = inputs_used tr ++ inputs_used tr'.
Proof. apply omap_app. Qed.

Lemma spans_integrated_app (tr tr' : list event) :
  spans_integrated (tr ++ tr') = spans_integrated tr ++ spans_integrated tr'.
Proof. apply omap_app. Qed.

Lemma integrate_and_publish_keeps_u Tf Caf t i CaT :
  keeps (same w_u) (integrate_and_publish odeint Tf Caf t i CaT).
Proof. unfold integrate_and_publish. destruct CaT. keeps_auto. Qed.

Lemma integrate_and_publish_keeps_consumer Tf Caf t i CaT :
  keeps (same w_consumer) (integrate_and_publish odeint Tf Caf t i CaT).
Proof. unfold integrate_and_publish. destruct CaT. keeps_auto. Qed.

(** Whatever its outcome, [integrate_and_publish] calls the solver at most
    once, over [t[i], t[i+1]] and with [u[i+1]] as the array stands at the
    call. *)
Lemma integrate_and_publish_calls Tf Caf t i CaT w :
  exists evs,
    w_trace (integrate_and_publish odeint Tf Caf t i CaT w).2 = w_trace w ++ evs /\
    ((is_ret (integrate_and_publish odeint Tf Caf t i CaT w).1 = false /\
      inputs_used evs = [] /\ spans_integrated evs = []) \/
     (exists t_i t_i1 u_i1,
        t !! i = Some t_i /\ t !! (i + 1) = Some t_i1 /\
        w_u w !! (i + 1) = Some u_i1 /\
        inputs_used evs = [u_i1] /\ spans_integrated evs = [(t_i, t_i1)])).
Proof.
  destruct CaT as [Ca T]. unfold integrate_and_publish.
  run_step. destruct (getitem t i) as [t_i|] eqn:Et0;
    [|exists []; rewrite app_nil_r; auto].
  run_step. destruct (getitem t (i + 1)) as [t_i1|] eqn:Et1;
    [|exists []; rewrite app_nil_r; auto].
  do 3 run_step. destruct (getitem (w_u w) (i + 1)) as [u_i1|] eqn:Eu;
    [|exists []; rewrite app_nil_r; auto].
  apply getitem_Ret in Et0, Et1, Eu.
  do 2 run_step.
  match goal with |- context [(?m0 ≫= ?f0) ?w0] => set (m := m0 ≫= f0); set (w1 := w0) end.
  assert (Hm : keeps (grows publisher_event) m) by (subst m; keeps_auto).
  destruct (Hm w1) as (evs & E & F). rewrite E.
  eexists. split; [subst w1; cbn [w_trace add_event]; by rewrite <- !app_assoc|].
  right. exists t_i, t_i1, u_i1. split_and!; try done.
  - rewrite inputs_used_app. cbn.
    unfold inputs_used. by erewrite omap_none_Forall; [| |exact F]; [|intros []].
  - rewrite spans_integrated_app. cbn.
    unfold spans_integrated. by erewrite omap_none_Forall; [| |exact F]; [|intros []].
Qed.

(** [await_command] in its two regular cases. *)

Lemma await_command_exhausted i w :
  (receive_tc_from_kafka json_loads np_isnan_list w).1 = Ret PNone ->
  await_command json_loads np_isnan_list np_float64_of_object i w =
  (Ret tt, add_event (Log ERROR NoValidTc)
             (receive_tc_from_kafka json_loads np_isnan_list w).2).
Proof.
  intros Hr. unfold await_command. rewrite run_bind.
  destruct (receive_tc_from_kafka json_loads np_isnan_list w) as [r w1].
  cbn in Hr. by subst r.
Qed.

Lemma await_command_accepted i w tc x :
  (receive_tc_from_kafka json_loads np_isnan_list w).1 = Ret tc ->
  tc <> PNone ->
  np_float64 np_float64_of_object tc = Ret x ->
  i + 1 < length (w_u w) ->
  await_command json_loads np_isnan_list np_float64_of_object i w =
  (Ret tt, set_u (<[i + 1 := x]> (w_u w))
             (add_event (Log INFO (ReceivedNewTc tc))
                (receive_tc_from_kafka json_loads np_isnan_list w).2)).
Proof.
  intros Hr Htc Hx Hi. unfold await_command. rewrite run_bind.
  pose proof (receive_keeps_u json_loads np_isnan_list w) as Hu. unfold same in Hu.
  destruct (receive_tc_from_kafka json_loads np_isnan_list w) as [r w1].
  cbn in Hr, Hu. subst r.
  assert (Hset : setitem (w_u w1) (i + 1) x = Ret (<[i + 1 := x]> (w_u w))).
  { rewrite Hu. apply setitem_Ret. done. }
  destruct tc; try done; run_step; rewrite Hx; do 2 run_step; cbn [w_u add_event];
    rewrite Hset; by run_step.
Qed.

Lemma await_command_grows i :
  keeps (grows receiver_event)
    (await_command json_loads np_isnan_list np_float64_of_object i).
Proof. unfold await_command. keeps_auto. Qed.

Lemma await_command_keeps_x0 i :
  keeps (same w_x0) (await_command json_loads np_isnan_list np_float64_of_object i).
Proof. unfold await_command. keeps_auto. Qed.

Lemma await_command_keeps_healthcheck i :
  keeps (same w_healthcheck)
    (await_command json_loads np_isnan_list np_float64_of_object i).
Proof. unfold await_command. keeps_auto. Qed.

#[global] Instance writes_only_preorder slots : PreOrder (writes_only slots).
Proof.
  split.
  - by intros w.
  - intros w1 w2 w3 [L12 H12] [L23 H23]. split; [congruence|].
    intros k Hk. by rewrite H23, H12.
Qed.

Lemma writes_only_weaken (slots slots' : nat -> Prop) w w' :
  (forall k, slots k -> slots' k) -> writes_only slots w w' -> writes_only slots' w w'.
Proof. intros Hs [L H]. split; [done|]. intros k Hk. apply H. auto. Qed.

Lemma same_u_writes_only slots w w' : same w_u w w' -> writes_only slots w w'.
Proof. unfold same. intros E. split; by rewrite E. Qed.

Lemma await_command_writes i :
  keeps (writes_only (fun k => k = i + 1))
    (await_command json_loads np_isnan_list np_float64_of_object i).
Proof.
  intros w. unfold await_command. rewrite run_bind.
  pose proof (receive_keeps_u json_loads np_isnan_list w) as Hu. unfold same in Hu.
  destruct (receive_tc_from_kafka json_loads np_isnan_list w) as [[tc|e] w1];
    cbn in Hu; cbn [snd]; [|by apply same_u_writes_only].
  assert (Hnone : writes_only (fun k => k = i + 1) w
                    (emit (Log ERROR NoValidTc) w1).2)
    by by apply same_u_writes_only.
  destruct tc; try exact Hnone; clear Hnone.
  all: run_step; run_step;
    destruct (np_float64 np_float64_of_object _) as [x|];
    [|by apply same_u_writes_only; unfold same; cbn].
  all: do 2 run_step; cbn [w_u add_event]; unfold setitem;
    destruct (decide (i + 1 < length (w_u w1)));
    [|by apply same_u_writes_only; unfold same; cbn].
  all: split; cbn [snd w_u set_u modify];
    [by rewrite length_insert, Hu|].
  all: intros k Hk; by rewrite list_lookup_insert_ne, Hu.
Qed.

Lemma simulate_body_writes Tf Caf t i CaT :
  keeps (writes_only (fun k => k = i + 1))
    (simulate_body json_loads np_isnan_list np_float64_of_object odeint Tf Caf t i CaT).
Proof.
  unfold simulate_body. apply keeps_bind.
  - intros w. apply same_u_writes_only. apply integrate_and_publish_keeps_u.
  - intros CaT'. apply keeps_bind; [apply await_command_writes|].
    intros []. apply keeps_ret.
Qed.

(** The solver calls of one iteration, as for [integrate_and_publish]. *)
Lemma simulate_body_calls Tf Caf t i CaT w :
  exists evs,
    w_trace (simulate_body json_loads np_isnan_list np_float64_of_object odeint
               Tf Caf t i CaT w).2 = w_trace w ++ evs /\
    ((is_ret (simulate_body json_loads np_isnan_list np_float64_of_object odeint
                Tf Caf t i CaT w).1 = false /\
      inputs_used evs = [] /\ spans_integrated evs = []) \/
     (exists t_i t_i1 u_i1,
        t !! i = Some t_i /\ t !! (i + 1) = Some t_i1 /\
        w_u w !! (i + 1) = Some u_i1 /\
        inputs_used evs = [u_i1] /\ spans_integrated evs = [(t_i, t_i1)])).
Proof.
  unfold simulate_body. rewrite run_bind.
  destruct (integrate_and_publish_calls Tf Caf t i CaT w) as (evs & E & D).
  destruct (integrate_and_publish odeint Tf Caf t i CaT w) as [[CaT'|e] w1];
    cbn [fst snd] in *; [|by exists evs].
  destruct D as [(? & _)|D]; [done|].
  rewrite run_bind.
  destruct (await_command_grows i w1) as (evs' & E' & F').
  exists (evs ++ evs'). split.
  { revert E'.
    destruct (await_command json_loads np_isnan_list np_float64_of_object i w1)
      as [[[]|e] w2]; rewrite ?run_ret; cbn [fst snd]; intros E';
      by rewrite E', E, app_assoc. }
  right. destruct D as (t_i & t_i1 & u_i1 & ? & ? & ? & Hin & Hsp).
  exists t_i, t_i1, u_i1. split_and!; try done.
  - rewrite inputs_used_app, Hin. unfold inputs_used at 1.
    by erewrite omap_none_Forall; [| |exact F']; [|intros []].
  - rewrite spans_integrated_app, Hsp. unfold spans_integrated at 1.
    by erewrite omap_none_Forall; [| |exact F']; [|intros []].
Qed.

(** A regular end of [integrate_and_publish]: where the new state is stored. *)
Lemma integrate_and_publish_Ret Tf Caf t i Ca T w Ca' T' w' :
  integrate_and_publish odeint Tf Caf t i (Ca, T) w = (Ret (Ca', T'), w') ->
  exists t_i t_i1 u_i1 ca temp,
    t !! i = Some t_i /\ t !! (i + 1) = Some t_i1 /\ w_u w !! (i + 1) = Some u_i1 /\
    odeint (w_x0 w) t_i t_i1 u_i1 Tf Caf = Ret (ca, temp) /\
    i + 1 < length Ca /\ Ca' = <[i + 1 := ca]> Ca /\
    i + 1 < length T /\ T' = <[i + 1 := temp]> T /\
    1 < length (w_x0 w) /\ w_x0 w' = <[1 := temp]> (<[0 := ca]> (w_x0 w)).
Proof.
  unfold integrate_and_publish. intros H.
  rewrite run_bind_lift in H. destruct (getitem t i) as [t_i|] eqn:Et0; [|done].
  rewrite run_bind_lift in H. destruct (getitem t (i + 1)) as [t_i1|] eqn:Et1; [|done].
  rewrite !run_bind_gets, run_bind_lift in H.
  destruct (getitem (w_u w) (i + 1)) as [u_i1|] eqn:Eu; [|done].
  rewrite !run_bind_emit, run_bind_lift in H. cbn [w_x0 add_event] in H.
  destruct (odeint (w_x0 w) t_i t_i1 u_i1 Tf Caf) as [[ca temp]|] eqn:Eo; [|done].
  cbn [fst snd] in H.
  rewrite run_bind_lift in H.
  destruct (setitem Ca (i + 1) ca) as [Ca1|] eqn:ECa; [|done].
  rewrite run_bind_lift in H.
  destruct (setitem T (i + 1) temp) as [T1|] eqn:ET; [|done].
  apply setitem_Ret in ECa as [HCa ->]. apply setitem_Ret in ET as [HT ->].
  rewrite (getitem_insert _ _ _ HCa), run_bind_lift, run_bind_lift in H.
  destruct (setitem (w_x0 w) 0 ca) as [x1|] eqn:Ex1; [|done].
  apply setitem_Ret in Ex1 as [Hx1 ->].
  rewrite run_bind_modify, (getitem_insert _ _ _ HT), run_bind_lift, run_bind_lift in H.
  destruct (setitem (<[0:=ca]> (w_x0 w)) 1 temp) as [x2|] eqn:Ex2; [|done].
  apply setitem_Ret in Ex2 as [Hx2 ->]. rewrite length_insert in Hx2.
  rewrite run_bind_modify, run_bind_lift, !run_bind_emit, run_bind,
    send_data_to_kafka_run, run_ret in H.
  apply getitem_Ret in Et0, Et1, Eu.
  injection H as <- <- <-.
  exists t_i, t_i1, u_i1, ca, temp. split_and!; try done.
  by destruct (sendable ca temp).
Qed.

(** After an iteration that ends regularly, [x0] holds the state just stored
    at index [i + 1] of [Ca] and [T]. *)
Lemma simulate_body_x0 Tf Caf t i CaT w Ca' T' w' :
  simulate_body json_loads np_isnan_list np_float64_of_object odeint
    Tf Caf t i CaT w = (Ret (Ca', T'), w') ->
  exists ca temp,
    Ca' !! (i + 1) = Some ca /\ T' !! (i + 1) = Some temp /\
    w_x0 w' !! 0 = Some ca /\ w_x0 w' !! 1 = Some temp.
Proof.
  destruct CaT as [Ca T]. unfold simulate_body. rewrite run_bind. intros H.
  destruct (integrate_and_publish odeint Tf Caf t i (Ca, T) w)
    as [[[Ca1 T1]|] w1] eqn:HIP; [|done].
  apply integrate_and_publish_Ret in HIP
    as (t_i & t_i1 & u_i1 & ca & temp & _ & _ & _ & _ & HCa & -> & HT & -> & Hx & Ex).
  rewrite run_bind in H.
  pose proof (await_command_keeps_x0 i w1) as Hk. unfold same in Hk.
  destruct (await_command json_loads np_isnan_list np_float64_of_object i w1)
    as [[[]|] w2]; [|done].
  rewrite run_ret in H. injection H as <- <- <-. cbn [snd] in Hk.
  exists ca, temp. rewrite Hk, Ex. split_and!.
  - by apply list_lookup_insert_eq.
  - by apply list_lookup_insert_eq.
  - rewrite list_lookup_insert_ne by done. apply list_lookup_insert_eq. lia.
  - apply list_lookup_insert_eq. by rewrite length_insert.
Qed.

(** *** The loop *)

Lemma simulate_loop_writes Tf Caf t range : forall CaT,
  keeps (writes_only (fun k => exists i, i ∈ range /\ k = i + 1))
    (simulate_loop json_loads np_isnan_list np_float64_of_object odeint
       Tf Caf t range CaT).
Proof.
  induction range as [|i range IH]; intros CaT; cbn [simulate_loop].
  - apply keeps_ret.
  - apply keeps_bind.
    + intros w. eapply writes_only_weaken; [|apply simulate_body_writes].
      intros k ->. exists i. split; [left|done].
    + intros CaT' w. eapply writes_only_weaken; [|apply IH].
      intros k (j & Hj & ->). exists j. split; [by right|done].
Qed.

(** The solver calls of the iterations [a], [a + 1], ..., in order: call [k]
    gets the slot [a + k + 1] of [u] as it was before the loop, and the span
    from [t[a + k]] to [t[a + k + 1]]. *)
Lemma simulate_loop_calls Tf Caf t n : forall a CaT w,
  exists evs,
    w_trace (simulate_loop json_loads np_isnan_list np_float64_of_object odeint
               Tf Caf t (seq a n) CaT w).2 = w_trace w ++ evs /\
    length (spans_integrated evs) = length (inputs_used evs) /\
    length (inputs_used evs) <= n /\
    (is_ret (simulate_loop json_loads np_isnan_list np_float64_of_object odeint
               Tf Caf t (seq a n) CaT w).1 = true ->
     length (inputs_used evs) = n) /\
    (forall k x, inputs_used evs !! k = Some x -> w_u w !! (a + k + 1) = Some x) /\
    (forall k s, spans_integrated evs !! k = Some s ->
       t !! (a + k) = Some s.1 /\ t !! (a + k + 1) = Some s.2).
Proof.
  induction n as [|n IH]; intros a CaT w; cbn [seq simulate_loop].
  { exists []. rewrite run_ret, app_nil_r. split_and!; try done. }
  rewrite run_bind.
  destruct (simulate_body_calls Tf Caf t a CaT w) as (evs1 & E1 & D).
  pose proof (simulate_body_writes Tf Caf t a CaT w) as [_ Hw].
  destruct (simulate_body json_loads np_isnan_list np_float64_of_object odeint
              Tf Caf t a CaT w) as [[CaT'|e] w1]; cbn [fst snd] in *.
  - destruct D as [(? & _)|(t_i & t_i1 & u_i1 & Ht0 & Ht1 & Hu & Hin & Hsp)]; [done|].
    destruct (IH (S a) CaT' w1) as (evs2 & E2 & HL & Hle & Hret & Hin2 & Hsp2).
    exists (evs1 ++ evs2). rewrite inputs_used_app, spans_integrated_app, Hin, Hsp.
    split_and!.
    + by rewrite E2, E1, app_assoc.
    + cbn. by rewrite HL.
    + cbn. lia.
    + intros Hr. cbn. by rewrite Hret.
    + intros [|k] x; cbn.
      * intros [= <-]. by replace (a + 0 + 1) with (a + 1) by lia.
      * intros Hk. apply Hin2 in Hk. rewrite Hw in Hk by lia.
        by replace (a + S k + 1) with (S a + k + 1) by lia.
    + intros [|k] s; cbn.
      * intros [= <-]. by replace (a + 0) with a by lia.
      * intros Hk. apply Hsp2 in Hk.
        by replace (a + S k) with (S a + k) by lia.
  - exists evs1. split; [done|].
    destruct D as [(_ & -> & ->)|(t_i & t_i1 & u_i1 & Ht0 & Ht1 & Hu & -> & ->)].
    + split_and!; cbn; try done; lia.
    + split_and!; cbn; try done; try lia.
      * intros [|k] x; cbn; [|done].
        intros [= <-]. by replace (a + 0 + 1) with (a + 1) by lia.
      * intros [|k] s; cbn; [|done].
        intros [= <-]. by replace (a + 0) with a by lia.
Qed.

(** When the loop runs at least once and ends regularly, [x0] holds the last
    entries of [Ca] and [T]. *)
Lemma simulate_loop_x0 Tf Caf t n : forall a CaT w Ca' T' w',
  simulate_loop json_loads np_isnan_list np_float64_of_object odeint
    Tf Caf t (seq a (S n)) CaT w = (Ret (Ca', T'), w') ->
  exists ca temp,
    Ca' !! (a + S n) = Some ca /\ T' !! (a + S n) = Some temp /\
    w_x0 w' !! 0 = Some ca /\ w_x0 w' !! 1 = Some temp.
Proof.
  induction n as [|n IH]; intros a CaT w Ca' T' w'.
  - cbn [seq simulate_loop]. rewrite run_bind. intros H.
    destruct (simulate_body json_loads np_isnan_list np_float64_of_object odeint
                Tf Caf t a CaT w) as [[[Ca1 T1]|] w1] eqn:Hb; [|done].
    rewrite run_ret in H. injection H as <- <- <-.
    apply simulate_body_x0 in Hb. by replace (a + 1) with (a + 1) in Hb.
  - change (seq a (S (S n))) with (a :: seq (S a) (S n)).
    cbn [simulate_loop]. rewrite run_bind. intros H.
    destruct (simulate_body json_loads np_isnan_list np_float64_of_object odeint
                Tf Caf t a CaT w) as [[CaT1|] w1]; [|done].
    apply IH in H. by replace (a + S (S n)) with (S a + S n) by lia.
Qed.

(** A regular end of the iterations [a], ..., [a + n - 1]: the arrays keep
    their length and their entries up to index [a], and every iteration [i]
    has stored at index [i + 1] what the solver returned for the state
    before it, the span from [t[i]] to [t[i+1]] and the slot [i + 1] of [u]
    as it was before the loop. *)
Lemma simulate_loop_steps Tf Caf t n : forall a Ca T w Ca' T' w',
  simulate_loop json_loads np_isnan_list np_float64_of_object odeint
    Tf Caf t (seq a n) (Ca, T) w = (Ret (Ca', T'), w') ->
  length Ca' = length Ca /\ length T' = length T /\
  take (a + 1) Ca' = take (a + 1) Ca /\ take (a + 1) T' = take (a + 1) T /\
  forall i, a <= i < a + n ->
    exists x t_i t_i1 u_i1 ca temp,
      (i = a -> x = w_x0 w) /\
      (a < i -> exists ca0 temp0,
         Ca' !! i = Some ca0 /\ T' !! i = Some temp0 /\
         x = <[1 := temp0]> (<[0 := ca0]> (w_x0 w))) /\
      t !! i = Some t_i /\ t !! (i + 1) = Some t_i1 /\ w_u w !! (i + 1) = Some u_i1 /\
      odeint x t_i t_i1 u_i1 Tf Caf = Ret (ca, temp) /\
      Ca' !! (i + 1) = Some ca /\ T' !! (i + 1) = Some temp.
Proof.
  induction n as [|n IH]; intros a Ca T w Ca' T' w'.
  { cbn [seq simulate_loop]. rewrite run_ret. intros [= <- <- <-].
    split_and!; try done. intros i Hi. lia. }
  cbn [seq simulate_loop]. rewrite run_bind. unfold simulate_body at 1. rewrite run_bind.
  destruct (integrate_and_publish odeint Tf Caf t a (Ca, T) w)
    as [[[Ca1 T1]|] w1] eqn:HIP; [|done].
  pose proof (integrate_and_publish_keeps_u Tf Caf t a (Ca, T) w) as Hu1.
  rewrite HIP in Hu1. unfold same in Hu1. cbn [snd] in Hu1.
  apply integrate_and_publish_Ret in HIP
    as (t_i & t_i1 & u_i1 & ca & temp & Ht0 & Ht1 & Hu & Ho & HCa & -> & HT & -> & Hx & Ex).
  rewrite run_bind.
  pose proof (await_command_keeps_x0 a w1) as Hk. unfold same in Hk.
  pose proof (await_command_writes a w1) as [_ Hwr].
  destruct (await_command json_loads np_isnan_list np_float64_of_object a w1)
    as [[[]|] w2]; [|done].
  rewrite run_ret. cbn [snd] in Hk, Hwr.
  intros H. apply IH in H as (HL1 & HL2 & Htk1 & Htk2 & Hsteps).
  rewrite length_insert in HL1, HL2.
  assert (Hca : Ca' !! (a + 1) = Some ca).
  { rewrite <- (lookup_take_lt Ca' (S a + 1)) by lia. rewrite Htk1.
    rewrite lookup_take_lt by lia. by apply list_lookup_insert_eq. }
  assert (Htemp : T' !! (a + 1) = Some temp).
  { rewrite <- (lookup_take_lt T' (S a + 1)) by lia. rewrite Htk2.
    rewrite lookup_take_lt by lia. by apply list_lookup_insert_eq. }
  split_and!; try done.
  - apply (f_equal (take (a + 1))) in Htk1. rewrite !take_take in Htk1.
    replace ((a + 1) `min` (S a + 1)) with (a + 1) in Htk1 by lia.
    by rewrite take_insert_ge in Htk1 by lia.
  - apply (f_equal (take (a + 1))) in Htk2. rewrite !take_take in Htk2.
    replace ((a + 1) `min` (S a + 1)) with (a + 1) in Htk2 by lia.
    by rewrite take_insert_ge in Htk2 by lia.
  - intros i Hi. destruct (decide (i = a)) as [->|Hne].
    { exists (w_x0 w), t_i, t_i1, u_i1, ca, temp. split_and!; try done. lia. }
    destruct (Hsteps i) as (x & t_j & t_j1 & u_j1 & ca' & temp' &
                            Hfirst & Hlater & Ht0' & Ht1' & Hu' & Ho' & Hca' & Htemp');
      [lia|].
    exists x, t_j, t_j1, u_j1, ca', temp'. split_and!; try done.
    + intros _. destruct (decide (i = S a)) as [->|Hne'].
      * exists ca, temp. replace (S a) with (a + 1) at 1 2 by lia.
        split_and!; try done. by rewrite (Hfirst eq_refl), Hk, Ex.
      * destruct Hlater as (ca0 & temp0 & Hca0 & Htemp0 & ->); [lia|].
        exists ca0, temp0. split_and!; try done.
        rewrite Hk, Ex. by destruct (w_x0 w) as [|? [|? ?]].
    + rewrite <- Hu1, <- Hwr by lia. done.
Qed.

End Iteration.

(** ** The command receiver *)

Section Receiver.

Variable json_loads : string -> outcome pyval.
Variable np_isnan_list : list pyval -> outcome bool.

Lemma np_isnan_false (tc : pyval) :
  np_isnan np_isnan_list tc = Ret false <->
  match tc with
  | PFloat f => Float64.isnan f = false
  | PBool _ => True
  | PInt z => (- 2 ^ 63 <= z < 2 ^ 64)%Z
  | PList l => np_isnan_list l = Ret false
  | PNone | PStr _ | PDict _ => False
  end.
Proof.
  destruct tc; cbn; try done.
  - case_bool_decide; split; done.
  - split; [by intros [= ->]|by intros ->].
Qed.

Lemma process_message_verdict v w :
  (process_message json_loads np_isnan_list v w).1 = verdict json_loads np_isnan_list v.
Proof.
  unfold process_message, verdict, try_except. run_simpl.
  destruct v; try done.
  all: repeat (first [done | case_match; simplify_eq/=]).
Qed.

Lemma verdict_ignorable v :
  ignorable json_loads np_isnan_list v -> verdict json_loads np_isnan_list v = Ret None.
Proof.
  intros [->|[(s & -> & Hs)|(value & d & Hd & -> & Htc)]]; [done| |].
  - unfold verdict. by rewrite Hs.
  - assert (Hlook : match getitem_str (PDict d) "Tc" with
                    | Ret tc =>
                        match np_isnan np_isnan_list tc with
                        | Ret nan => Ret (if negb nan then Some tc else None)
                        | Raise e => if caught e then Ret None else Raise e
                        end
                    | Raise e => if caught e then Ret None else Raise e
                    end = Ret None).
    { cbn [getitem_str]. destruct Htc as [->|(tc & -> & ->)]; done. }
    destruct v; try done; cbn in Hd; simplify_eq; unfold verdict; by rewrite ?Hd.
Qed.

Lemma verdict_carries v tc :
  carries json_loads np_isnan_list v tc <->
  verdict json_loads np_isnan_list v = Ret (Some tc).
Proof.
  split.
  - intros (value & d & Hd & -> & Htc & Hnan).
    assert (Hlook : match getitem_str (PDict d) "Tc" with
                    | Ret tc =>
                        match np_isnan np_isnan_list tc with
                        | Ret nan => Ret (if negb nan then Some tc else None)
                        | Raise e => if caught e then Ret None else Raise e
                        end
                    | Raise e => if caught e then Ret None else Raise e
                    end = Ret (Some tc)).
    { cbn [getitem_str]. by rewrite Htc, Hnan. }
    destruct v; try done; cbn in Hd; simplify_eq; unfold verdict; by rewrite ?Hd.
  - assert (Hlook : forall value,
              match getitem_str value "Tc" with
              | Ret tc =>
                  match np_isnan np_isnan_list tc with
                  | Ret nan => Ret (if negb nan then Some tc else None)
                  | Raise e => if caught e then Ret None else Raise e
                  end
              | Raise e => if caught e then Ret None else Raise e
              end = Ret (Some tc) ->
              exists d, value = PDict d /\ dict_get d "Tc" = Some tc /\
                        np_isnan np_isnan_list tc = Ret false).
    { intros value H. destruct value; cbn [getitem_str caught] in H; try done.
      destruct (dict_get d "Tc") as [tc'|] eqn:Ed; [|done].
      destruct (np_isnan np_isnan_list tc') as [[]|e] eqn:En; cbn in H;
        [done| |by destruct (caught e)].
      injection H as ->. by exists d. }
    unfold verdict, carries. intros H.
    destruct v; try done.
    + destruct (json_loads s) as [value|e] eqn:Es; [|by destruct (caught e)].
      apply Hlook in H as (d & -> & ? & ?). by exists (PDict d), d.
    + apply Hlook in H as (d' & Hv & ? & ?). simplify_eq. by exists (PDict d'), d'.
Qed.

End Receiver.

Lemma failed_attempts_app (tr tr' : list event) :
  failed_attempts (tr ++ tr') = failed_attempts tr ++ failed_attempts tr'.
Proof. apply omap_app. Qed.

Lemma polls_app (tr tr' : list event) : polls (tr ++ tr') = polls tr + polls tr'.
Proof. unfold polls. by rewrite omap_app, length_app. Qed.

Lemma message_events_silent (evs : list event) :
  Forall (fun e => message_event e = true) evs ->
  failed_attempts evs = [] /\ polls evs = 0.
Proof.
  intros F. unfold polls, failed_attempts. split.
  - eapply omap_none_Forall; [|exact F]. by intros [[] []| | | | |].
  - erewrite omap_none_Forall; [done| |exact F]. by intros [[] []| | | | |].
Qed.

Lemma after_idle_harmless `(harmless : inbound -> Prop) (pending : list inbound) :
  Forall harmless pending -> Forall harmless (after_idle pending).
Proof.
  induction 1 as [|[]]; cbn; auto.
Qed.

Section Receiving.

Variable json_loads : string -> outcome pyval.
Variable np_isnan_list : list pyval -> outcome bool.

(** *** One pass over the pending records *)

Lemma poll_messages_reach pre v tc rest : forall w,
  Forall (harmless json_loads np_isnan_list) pre ->
  count_idle pre = 0 ->
  carries json_loads np_isnan_list v tc ->
  (poll_messages json_loads np_isnan_list (pre ++ Record v :: rest) w).1 = Ret (Some tc) /\
  w_consumer (poll_messages json_loads np_isnan_list (pre ++ Record v :: rest) w).2 = rest.
Proof.
  intros w F Hidle Hv. revert w.
  induction F as [|m pre Hm F IH]; intros w.
  - cbn [app poll_messages]. rewrite run_bind_modify, run_bind.
    pose proof (process_message_verdict json_loads np_isnan_list v
                  (set_consumer rest w)) as Hr.
    rewrite (proj1 (verdict_carries _ _ _ _) Hv) in Hr.
    pose proof (process_message_keeps_consumer json_loads np_isnan_list v
                  (set_consumer rest w)) as Hc.
    destruct (process_message json_loads np_isnan_list v (set_consumer rest w))
      as [r w1]. cbn in Hr, Hc. by subst r.
  - destruct m as [v'| |]; [|done|done].
    cbn [app poll_messages]. rewrite run_bind_modify, run_bind.
    pose proof (process_message_verdict json_loads np_isnan_list v'
                  (set_consumer (pre ++ Record v :: rest) w)) as Hr.
    rewrite (verdict_ignorable _ _ _ Hm) in Hr.
    destruct (process_message json_loads np_isnan_list v'
                (set_consumer (pre ++ Record v :: rest) w)) as [r w1].
    cbn in Hr. subst r. by apply IH.
Qed.

Lemma poll_messages_idle pre more : forall w,
  w_consumer w = pre ++ more ->
  Forall (harmless json_loads np_isnan_list) pre ->
  0 < count_idle pre ->
  (poll_messages json_loads np_isnan_list (pre ++ more) w).1 = Ret None /\
  w_consumer (poll_messages json_loads np_isnan_list (pre ++ more) w).2 =
    after_idle pre ++ more.
Proof.
  intros w Hw F. revert w Hw.
  induction F as [|m pre Hm F IH]; intros w Hw Hidle; [cbn in Hidle; lia|].
  destruct m as [v'| |]; [|done|done].
  cbn [app poll_messages after_idle]. rewrite run_bind_modify, run_bind.
  pose proof (process_message_verdict json_loads np_isnan_list v'
                (set_consumer (pre ++ more) w)) as Hr.
  rewrite (verdict_ignorable _ _ _ Hm) in Hr.
  pose proof (process_message_keeps_consumer json_loads np_isnan_list v'
                (set_consumer (pre ++ more) w)) as Hc.
  destruct (process_message json_loads np_isnan_list v'
              (set_consumer (pre ++ more) w)) as [r w1].
  cbn in Hr, Hc. subst r. by apply IH.
Qed.

(** A value returned by the pass comes from a pending message that carries it. *)
Lemma poll_messages_Some pending tc : forall w,
  (poll_messages json_loads np_isnan_list pending w).1 = Ret (Some tc) ->
  exists v, Record v ∈ pending /\ carries json_loads np_isnan_list v tc.
Proof.
  induction pending as [|m rest IH]; intros w; [done|].
  destruct m as [v| |]; [|done|done].
  cbn [poll_messages]. rewrite run_bind_modify, run_bind.
  pose proof (process_message_verdict json_loads np_isnan_list v
                (set_consumer rest w)) as Hr.
  destruct (process_message json_loads np_isnan_list v (set_consumer rest w))
    as [[[tc'|]|e] w1]; cbn in Hr.
  - rewrite run_ret. intros [= ->]. exists v. split; [left|].
    by apply verdict_carries.
  - intros (v' & Hin & Hv')%IH. exists v'. split; [by right|done].
  - done.
Qed.

(** The pass only consumes: what is pending afterwards was pending before. *)
Lemma poll_messages_suffix pending : forall w,
  w_consumer w = pending ->
  suffix (w_consumer (poll_messages json_loads np_isnan_list pending w).2) pending.
Proof.
  induction pending as [|m rest IH]; intros w Hw.
  - cbn [poll_messages]. rewrite run_ret. cbn [snd]. by rewrite Hw.
  - destruct m as [v| |]; cbn [poll_messages].
    + rewrite run_bind_modify, run_bind.
      pose proof (process_message_keeps_consumer json_loads np_isnan_list v
                    (set_consumer rest w)) as Hc.
      destruct (process_message json_loads np_isnan_list v (set_consumer rest w))
        as [[[tc'|]|e] w1]; cbn in Hc; cbn [snd].
      * rewrite run_ret. cbn [snd]. rewrite Hc. by apply suffix_cons_r.
      * apply suffix_cons_r. by apply IH.
      * rewrite Hc. by apply suffix_cons_r.
    + by apply suffix_cons_r.
    + by apply suffix_cons_r.
Qed.

End Receiving.

Lemma count_idle_after_idle (pending : list inbound) :
  count_idle (after_idle pending) = pred (count_idle pending).
Proof. induction pending as [|[] rest IH]; cbn; auto. Qed.

Lemma after_idle_app (pre more : list inbound) :
  0 < count_idle pre -> after_idle (pre ++ more) = after_idle pre ++ more.
Proof. induction pre as [|[] pre IH]; cbn; auto; lia. Qed.

Lemma count_idle_after_idles (k : nat) : forall pending,
  count_idle (after_idles k pending) = count_idle pending - k.
Proof.
  induction k as [|k IH]; intros pending; cbn [after_idles]; [lia|].
  rewrite IH, count_idle_after_idle. lia.
Qed.

Lemma after_idles_app (k : nat) : forall pre more,
  k <= count_idle pre -> after_idles k (pre ++ more) = after_idles k pre ++ more.
Proof.
  induction k as [|k IH]; intros pre more Hk; cbn [after_idles]; [done|].
  rewrite after_idle_app by lia. apply IH. rewrite count_idle_after_idle. lia.
Qed.

Lemma after_idles_harmless `(harmless : inbound -> Prop) (k : nat) : forall pending,
  Forall harmless pending -> Forall harmless (after_idles k pending).
Proof.
  induction k as [|k IH]; intros pending F; cbn [after_idles]; [done|].
  by apply IH, after_idle_harmless.
Qed.

Lemma after_idles_add (j k : nat) : forall pending,
  after_idles (j + k) pending = after_idles k (after_idles j pending).
Proof. induction j as [|j IH]; intros pending; cbn [after_idles Nat.add]; auto. Qed.

Section Attempts.

Variable json_loads : string -> outcome pyval.
Variable np_isnan_list : list pyval -> outcome bool.

(** *** The attempts *)

(** When every attempt meets an idle timeout, and only harmless steps before
    it, every attempt fails; what follows the last of these timeouts is left
    pending. *)
Lemma attempts_quiet range : forall pre more w,
  w_consumer w = pre ++ more ->
  Forall (harmless json_loads np_isnan_list) pre ->
  length range <= count_idle pre ->
  (attempts json_loads np_isnan_list range w).1 = Ret None /\
  w_consumer (attempts json_loads np_isnan_list range w).2 =
    after_idles (length range) pre ++ more /\
  exists evs,
    w_trace (attempts json_loads np_isnan_list range w).2 = w_trace w ++ evs /\
    failed_attempts evs = map (fun attempt => attempt + 1) range /\
    polls evs = length range.
Proof.
  induction range as [|a range IH]; intros pre more w Hw F Hle.
  { cbn [attempts length after_idles]. rewrite run_ret. split_and!; try done.
    exists []. by rewrite app_nil_r. }
  cbn [length] in Hle.
  cbn [attempts]. unfold for_message_in_consumer. rewrite run_bind, run_bind_gets, Hw.
  destruct (poll_messages_grows json_loads np_isnan_list (pre ++ more) w)
    as (evs1 & E1 & F1).
  destruct (message_events_silent _ F1) as [Hf1 Hp1].
  destruct (poll_messages_idle json_loads np_isnan_list pre more w Hw F)
    as [Hr Hc]; [lia|].
  destruct (poll_messages json_loads np_isnan_list (pre ++ more) w) as [r w1].
  cbn [fst snd] in *. subst r. rewrite !run_bind_emit.
  set (w2 := add_event ConsumerPoll (add_event (Log INFO (AttemptFailed (a + 1))) w1)).
  destruct (IH (after_idle pre) more w2) as (Hr2 & Hc2 & evs2 & E2 & Hf & Hp); try done.
  { by apply after_idle_harmless. }
  { rewrite count_idle_after_idle. lia. }
  split_and!; try done.
  exists (evs1 ++ [Log INFO (AttemptFailed (a + 1)); ConsumerPoll] ++ evs2).
  split_and!.
  - rewrite E2. subst w2. cbn. rewrite E1. by rewrite <- !app_assoc.
  - rewrite !failed_attempts_app, Hf1, Hf. done.
  - rewrite !polls_app, Hp1, Hp. done.
Qed.

(** A message that carries a value is returned by the attempt that reaches
    it, provided fewer idle timeouts than attempts come before it. *)
Lemma attempts_reach v tc rest range : forall pre w,
  w_consumer w = pre ++ Record v :: rest ->
  Forall (harmless json_loads np_isnan_list) pre ->
  count_idle pre < length range ->
  carries json_loads np_isnan_list v tc ->
  (attempts json_loads np_isnan_list range w).1 = Ret (Some tc) /\
  w_consumer (attempts json_loads np_isnan_list range w).2 = rest /\
  exists evs,
    w_trace (attempts json_loads np_isnan_list range w).2 = w_trace w ++ evs /\
    failed_attempts evs = map (fun attempt => attempt + 1) (take (count_idle pre) range) /\
    polls evs = count_idle pre.
Proof.
  induction range as [|a range IH]; intros pre w Hw F Hlt Hv; [cbn in Hlt; lia|].
  cbn [attempts]. unfold for_message_in_consumer. rewrite run_bind, run_bind_gets, Hw.
  destruct (poll_messages_grows json_loads np_isnan_list (pre ++ Record v :: rest) w)
    as (evs1 & E1 & F1).
  destruct (message_events_silent _ F1) as [Hf1 Hp1].
  destruct (count_idle pre) as [|k] eqn:Hk.
  - destruct (poll_messages_reach json_loads np_isnan_list pre v tc rest w F Hk Hv)
      as [Hr Hc].
    destruct (poll_messages json_loads np_isnan_list (pre ++ Record v :: rest) w)
      as [r w1].
    cbn [fst snd] in *. subst r. rewrite run_ret. split_and!; try done.
    by exists evs1.
  - destruct (poll_messages_idle json_loads np_isnan_list pre (Record v :: rest) w Hw F)
      as [Hr Hc]; [lia|].
    destruct (poll_messages json_loads np_isnan_list (pre ++ Record v :: rest) w)
      as [r w1].
    cbn [fst snd] in *. subst r. rewrite !run_bind_emit.
    set (w2 := add_event ConsumerPoll (add_event (Log INFO (AttemptFailed (a + 1))) w1)).
    destruct (IH (after_idle pre) w2) as (Hr2 & Hc2 & evs2 & E2 & Hf & Hp); try done.
    { by apply after_idle_harmless. }
    { rewrite count_idle_after_idle, Hk. cbn in *. lia. }
    split_and!; try done.
    exists (evs1 ++ [Log INFO (AttemptFailed (a + 1)); ConsumerPoll] ++ evs2).
    rewrite count_idle_after_idle, Hk in Hf, Hp. cbn [pred] in Hf, Hp.
    split_and!.
    + rewrite E2. subst w2. cbn. rewrite E1. by rewrite <- !app_assoc.
    + rewrite !failed_attempts_app, Hf1, Hf. done.
    + rewrite !polls_app, Hp1, Hp. done.
Qed.

(** A value returned by the attempts comes from a pending message that
    carries it. *)
Lemma attempts_Some tc range : forall w,
  (attempts json_loads np_isnan_list range w).1 = Ret (Some tc) ->
  exists v, Record v ∈ w_consumer w /\ carries json_loads np_isnan_list v tc.
Proof.
  induction range as [|a range IH]; intros w; [done|].
  cbn [attempts]. unfold for_message_in_consumer. rewrite run_bind, run_bind_gets.
  pose proof (poll_messages_Some json_loads np_isnan_list (w_consumer w) tc w) as HS.
  pose proof (poll_messages_suffix json_loads np_isnan_list (w_consumer w) w eq_refl)
    as [k Hk].
  destruct (poll_messages json_loads np_isnan_list (w_consumer w) w)
    as [[[tc'|]|e] w1]; cbn [fst snd] in *; [| |done].
  - rewrite run_ret. intros [= ->]. by apply HS.
  - rewrite !run_bind_emit. intros (v & Hin & Hv)%IH. exists v. split; [|done].
    cbn in Hin. rewrite Hk. apply elem_of_app. by right.
Qed.

(** *** receive_tc_from_kafka *)

Lemma receive_quiet w pre rest :
  w_consumer w = pre ++ rest ->
  Forall (harmless json_loads np_isnan_list) pre ->
  5 <= count_idle pre ->
  (receive_tc_from_kafka json_loads np_isnan_list w).1 = Ret PNone /\
  w_consumer (receive_tc_from_kafka json_loads np_isnan_list w).2 =
    after_idles 5 pre ++ rest /\
  failed_attempts
    (new_events w (receive_tc_from_kafka json_loads np_isnan_list w).2) = [1; 2; 3; 4; 5] /\
  polls (new_events w (receive_tc_from_kafka json_loads np_isnan_list w).2) = 5.
Proof.
  intros Hw F Hle. unfold receive_tc_from_kafka. rewrite run_bind_emit, run_bind.
  destruct (attempts_quiet (seq 0 5) pre rest (add_event (Log INFO Waiting) w))
    as (Hr & Hc & evs & E & Hf & Hp); try done.
  destruct (attempts json_loads np_isnan_list (seq 0 5) (add_event (Log INFO Waiting) w))
    as [r w1].
  cbn [fst snd] in *. subst r. rewrite run_bind_emit, run_ret. cbn [fst snd].
  split_and!; try done.
  - rewrite (new_events_app _ _ ([Log INFO Waiting] ++ evs ++ [Log INFO ExitingAfter5])).
    + rewrite failed_attempts_app, failed_attempts_app, Hf. done.
    + cbn in E |- *. rewrite E. by rewrite <- !app_assoc.
  - rewrite (new_events_app _ _ ([Log INFO Waiting] ++ evs ++ [Log INFO ExitingAfter5])).
    + rewrite polls_app, polls_app, Hp. done.
    + cbn in E |- *. rewrite E. by rewrite <- !app_assoc.
Qed.

Lemma receive_reach w pre v tc rest :
  w_consumer w = pre ++ Record v :: rest ->
  Forall (harmless json_loads np_isnan_list) pre ->
  count_idle pre < 5 ->
  carries json_loads np_isnan_list v tc ->
  (receive_tc_from_kafka json_loads np_isnan_list w).1 = Ret tc /\
  w_consumer (receive_tc_from_kafka json_loads np_isnan_list w).2 = rest /\
  failed_attempts
    (new_events w (receive_tc_from_kafka json_loads np_isnan_list w).2) =
    seq 1 (count_idle pre) /\
  polls (new_events w (receive_tc_from_kafka json_loads np_isnan_list w).2) =
    count_idle pre.
Proof.
  intros Hw F Hlt Hv. unfold receive_tc_from_kafka. rewrite run_bind_emit, run_bind.
  destruct (attempts_reach v tc rest (seq 0 5) pre (add_event (Log INFO Waiting) w))
    as (Hr & Hc & evs & E & Hf & Hp); try done.
  destruct (attempts json_loads np_isnan_list (seq 0 5) (add_event (Log INFO Waiting) w))
    as [r w1].
  cbn [fst snd] in *. subst r. rewrite run_ret. cbn [fst snd].
  split_and!; try done.
  - rewrite (new_events_app _ _ ([Log INFO Waiting] ++ evs)).
    + rewrite failed_attempts_app, Hf. cbn [failed_attempts omap app].
      rewrite take_seq, <- fmap_S_seq.
      replace (count_idle pre `min` 5) with (count_idle pre) by lia.
      apply map_ext. intros. lia.
    + cbn in E |- *. by rewrite E, <- app_assoc.
  - rewrite (new_events_app _ _ ([Log INFO Waiting] ++ evs)).
    + by rewrite polls_app, Hp.
    + cbn in E |- *. by rewrite E, <- app_assoc.
Qed.

Lemma receive_Some w tc :
  (receive_tc_from_kafka json_loads np_isnan_list w).1 = Ret tc ->
  tc <> PNone ->
  exists v, Record v ∈ w_consumer w /\ carries json_loads np_isnan_list v tc.
Proof.
  unfold receive_tc_from_kafka. rewrite run_bind_emit, run_bind.
  pose proof (attempts_Some tc (seq 0 5) (add_event (Log INFO Waiting) w)) as HS.
  destruct (attempts json_loads np_isnan_list (seq 0 5) (add_event (Log INFO Waiting) w))
    as [[[tc'|]|e] w1]; cbn [fst snd] in *.
  - rewrite run_ret. intros [= ->] _. by apply HS.
  - rewrite run_bind_emit, run_ret. by intros [= <-].
  - done.
Qed.

End Attempts.

(** ** The readiness marker *)

Lemma any_sent_app (evs evs' : list event) :
  any_sent (evs ++ evs') = any_sent evs || any_sent evs'.
Proof. unfold any_sent. rewrite sent_app. by destruct (sent evs). Qed.

Lemma any_sent_false (evs : list event) : any_sent evs = false -> sent evs = [].
Proof. unfold any_sent. by destruct (sent evs). Qed.

Lemma marker_writes_lookup (evs : list event) (k : nat) :
  evs !! k = Some WriteHealthcheck -> 0 < marker_writes evs.
Proof.
  intros Hk. apply take_drop_middle in Hk. rewrite <- Hk.
  rewrite marker_writes_app. unfold marker_writes. cbn. lia.
Qed.

#[global] Instance marker_once_preorder : PreOrder marker_once.
Proof.
  split.
  - intros w. exists []. rewrite app_nil_r, orb_false_r, orb_true_r. done.
  - intros w1 w2 w3 (evs & E & Hh & Hm & Hk) (evs' & E' & Hh' & Hm' & Hk').
    exists (evs ++ evs'). split_and!.
    + by rewrite E', E, app_assoc.
    + by rewrite Hh', Hh, any_sent_app, orb_assoc.
    + rewrite marker_writes_app, Hm, Hm', Hh, any_sent_app.
      by destruct (w_healthcheck w1), (any_sent evs), (any_sent evs').
    + intros k Hlk. destruct (decide (k < length evs)) as [Hlt|Hge].
      * rewrite lookup_app_l in Hlk by done.
        rewrite take_app_le by lia. by apply Hk.
      * rewrite lookup_app_r in Hlk by lia.
        rewrite take_app_ge, sent_app, length_app by lia.
        rewrite (Hk' _ Hlk).
        apply marker_writes_lookup in Hlk. rewrite Hm', Hh in Hlk.
        destruct (w_healthcheck w1), (any_sent evs) eqn:Hs; cbn in Hlk; try lia.
        by rewrite (any_sent_false _ Hs).
Qed.

Lemma silent_marker_once (c : event -> bool) (w w' : world) :
  (forall e, c e = true -> silent e = true) ->
  grows c w w' -> same w_healthcheck w w' -> marker_once w w'.
Proof.
  intros Hc (evs & E & F) Hh. exists evs.
  assert (Hs : sent evs = []).
  { eapply omap_none_Forall; [|exact F]. intros e He%Hc. by destruct e. }
  assert (Hw : marker_writes evs = 0).
  { unfold marker_writes. erewrite omap_none_Forall; [done| |exact F].
    intros e He%Hc. by destruct e. }
  unfold any_sent. rewrite Hs, Hw, orb_false_r, orb_true_r. split_and!; try done.
  intros k Hk. apply marker_writes_lookup in Hk. lia.
Qed.

Lemma keeps_silent_marker_once {A} (c : event -> bool) (m : M A) :
  (forall e, c e = true -> silent e = true) ->
  keeps (grows c) m -> keeps (same w_healthcheck) m -> keeps marker_once m.
Proof. intros Hc Hg Hs w. eapply silent_marker_once; [exact Hc|apply Hg|apply Hs]. Qed.

Lemma keeps_emit_marker_once (e : event) :
  silent e = true -> keeps marker_once (emit e).
Proof.
  intros He. apply (keeps_silent_marker_once (fun e' => silent e')); [done| |].
  - by apply keeps_emit_grows.
  - by apply keeps_emit_same.
Qed.

Lemma keeps_modify_marker_once (g : world -> world) :
  (forall w, w_trace (g w) = w_trace w) ->
  (forall w, w_healthcheck (g w) = w_healthcheck w) ->
  keeps marker_once (modify g).
Proof.
  intros Ht Hh. apply (keeps_silent_marker_once silent); [done| |].
  - by apply keeps_modify_grows.
  - by apply keeps_modify_same.
Qed.

Lemma send_marker_once ca temp : keeps marker_once (send_data_to_kafka ca temp).
Proof.
  intros w. rewrite send_data_to_kafka_run. cbn [snd].
  destruct (sendable ca temp).
  - eexists. split; [reflexivity|]. cbn [w_healthcheck].
    destruct (w_healthcheck w); cbn; split_and!; try done.
    + intros [|[|[|[|k]]]]; by cbn.
    + intros [|[|[|[|k]]]]; by cbn.
  - apply (silent_marker_once silent); [done| |done].
    exists [Log ERROR (AttemptedNaN ca temp)]. split; [done|]. by repeat constructor.
Qed.

#[global] Hint Resolve send_marker_once : keeps.
#[global] Hint Extern 1 (keeps marker_once (emit _)) =>
  apply keeps_emit_marker_once; reflexivity : keeps.
#[global] Hint Extern 1 (keeps marker_once (modify _)) =>
  apply keeps_modify_marker_once; intros ?; reflexivity : keeps.

Section Marker.

Variable json_loads : string -> outcome pyval.
Variable np_isnan_list : list pyval -> outcome bool.
Variable np_float64_of_object : pyval -> outcome float.
Variable odeint :
  list float -> float -> float -> float -> float -> float -> outcome (float * float).

Lemma integrate_and_publish_marker_once Tf Caf t i CaT :
  keeps marker_once (integrate_and_publish odeint Tf Caf t i CaT).
Proof. unfold integrate_and_publish. destruct CaT. keeps_auto. Qed.

Lemma await_command_marker_once i :
  keeps marker_once (await_command json_loads np_isnan_list np_float64_of_object i).
Proof.
  apply (keeps_silent_marker_once receiver_event).
  - by intros [].
  - apply await_command_grows.
  - apply await_command_keeps_healthcheck.
Qed.

Lemma simulate_loop_marker_once Tf Caf t range : forall CaT,
  keeps marker_once
    (simulate_loop json_loads np_isnan_list np_float64_of_object odeint
       Tf Caf t range CaT).
Proof.
  induction range as [|i range IH]; intros CaT; cbn [simulate_loop].
  - apply keeps_ret.
  - apply keeps_bind; [|done]. unfold simulate_body. apply keeps_bind.
    + apply integrate_and_publish_marker_once.
    + intros CaT'. apply keeps_bind; [apply await_command_marker_once|].
      intros []. apply keeps_ret.
Qed.

Lemma simulate_cstr_marker_once Tf Caf t :
  keeps marker_once
    (simulate_cstr json_loads np_isnan_list np_float64_of_object odeint Tf Caf t).
Proof.
  unfold simulate_cstr. keeps_auto. apply simulate_loop_marker_once.
Qed.

End Marker.

(** ** The claims *)

Section Claims.

Variable json_loads : string -> outcome pyval.
Variable np_isnan_list : list pyval -> outcome bool.
Variable np_float64_of_object : pyval -> outcome float.
Variable odeint :
  list float -> float -> float -> float -> float -> float -> outcome (float * float).

(** C1: every step is integrated with the control input of slot [i + 1].
    When [simulate_cstr] returns [(Ca, T)], then for every [i] up to
    [len(t) - 2] the state stored at [Ca[i+1]], [T[i+1]] is what the solver
    returned when called on the state before step [i], the span from [t[i]]
    to [t[i+1]] and the control input [u[i+1]] -- the slot of the grid point
    the step advances to, with the value it had when the call began, not
    [u[i]].  The same holds of every iteration of the loop that has ended
    regularly, after any number [k] of them.  And in every run, however it
    ends, the i-th solver call on record is over [t[i], t[i+1]] and with
    [u[i+1]], and a run that returns has made [len(t) - 1] such calls. *)
Theorem C1_one_step_ahead (Tf Caf : float) (t : list float) (w : world) :
  let run :=
    simulate_cstr json_loads np_isnan_list np_float64_of_object odeint Tf Caf t w in
  let evs := new_events w run.2 in
  (forall Ca T,
     run.1 = Ret (Ca, T) ->
     forall i, i < length t - 1 ->
       integrated_one_step_ahead odeint Tf Caf t (w_u w) (w_x0 w) Ca T i) /\
  (forall k CaT w0 Ca T w',
     simulate_loop json_loads np_isnan_list np_float64_of_object odeint
       Tf Caf t (seq 0 k) CaT w0 = (Ret (Ca, T), w') ->
     forall i, i < k ->
       integrated_one_step_ahead odeint Tf Caf t (w_u w0) (w_x0 w0) Ca T i) /\
  length (spans_integrated evs) = length (inputs_used evs) /\
  (is_ret run.1 = true -> length (inputs_used evs) = length t - 1) /\
  (forall i x, inputs_used evs !! i = Some x -> w_u w !! (i + 1) = Some x) /\
  (forall i s, spans_integrated evs !! i = Some s ->
     t !! i = Some s.1 /\ t !! (i + 1) = Some s.2).
Proof.
  cbn zeta.
  assert (Hloop : forall k CaT w0 Ca T w',
    simulate_loop json_loads np_isnan_list np_float64_of_object odeint
      Tf Caf t (seq 0 k) CaT w0 = (Ret (Ca, T), w') ->
    forall i, i < k ->
      integrated_one_step_ahead odeint Tf Caf t (w_u w0) (w_x0 w0) Ca T i).
  { intros k [Ca0 T0] w0 Ca T w' H i Hi.
    apply simulate_loop_steps in H as (_ & _ & _ & _ & Hsteps).
    destruct (Hsteps i) as (x & t_i & t_i1 & u_i1 & ca & temp &
                            Hfirst & Hlater & Ht0 & Ht1 & Hu & Ho & Hca & Htemp); [lia|].
    exists x, t_i, t_i1, u_i1, ca, temp. split_and!; try done.
    destruct i as [|i]; cbn [state_before].
    - by rewrite Hfirst.
    - destruct Hlater as (ca0 & temp0 & -> & -> & ->); [lia|done]. }
  split; [|split; [exact Hloop|]].
  - unfold simulate_cstr. rewrite run_bind_emit, run_bind_gets, run_bind_lift.
    intros Ca T.
    destruct (getitem _ 0) as [x0_0|e]; [|done].
    rewrite run_bind_lift.
    destruct (getitem _ 1) as [x0_1|e]; [|done].
    destruct (simulate_loop json_loads np_isnan_list np_float64_of_object odeint
                Tf Caf t (seq 0 (length t - 1))
                (replicate (length t) (Float64.mul Float64.one x0_0),
                 replicate (length t) (Float64.mul Float64.one x0_1))
                (add_event (Log INFO Entered) w)) as [r w'] eqn:E.
    cbn [fst]. intros -> i Hi.
    exact (Hloop _ _ _ _ _ _ E i Hi).
  - unfold simulate_cstr.
    rewrite run_bind_emit, run_bind_gets, run_bind_lift.
    assert (Hstop : forall e : exn,
      let evs := new_events w (Raise e : outcome (list float * list float),
                               add_event (Log INFO Entered) w).2 in
      length (spans_integrated evs) = length (inputs_used evs) /\
      (is_ret (Raise e : outcome (list float * list float)) = true ->
       length (inputs_used evs) = length t - 1) /\
      (forall i x, inputs_used evs !! i = Some x -> w_u w !! (i + 1) = Some x) /\
      (forall i s, spans_integrated evs !! i = Some s ->
         t !! i = Some s.1 /\ t !! (i + 1) = Some s.2)).
    { intros e. cbn zeta. cbn [snd].
      rewrite (new_events_app _ _ [Log INFO Entered]) by done. by cbn. }
    destruct (getitem _ 0) as [x0_0|e]; [|apply Hstop].
    rewrite run_bind_lift.
    destruct (getitem _ 1) as [x0_1|e]; [|apply Hstop].
    cbn zeta.
    destruct (simulate_loop_calls json_loads np_isnan_list np_float64_of_object odeint
                Tf Caf t (length t - 1) 0
                (replicate (length t) (Float64.mul Float64.one x0_0),
                 replicate (length t) (Float64.mul Float64.one x0_1))
                (add_event (Log INFO Entered) w))
      as (evs & E & HL & _ & Hret & Hin & Hsp).
    rewrite (new_events_app _ _ ([Log INFO Entered] ++ evs))
      by (rewrite E; cbn; by rewrite <- app_assoc).
    rewrite inputs_used_app, spans_integrated_app. cbn [app inputs_used spans_integrated omap].
    split_and!; try done.
Qed.

(** C7: when the receiver ends an iteration with its no-value result, the
    iteration ends regularly and the array [u] is as it was before the
    iteration; slot [i + 1] still holds the value the solver was given. *)
Theorem C7_exhausted_leaves_u (Tf Caf : float) (t : list float) (i : nat)
    (CaT CaT' : list float * list float) (w w1 : world) :
  integrate_and_publish odeint Tf Caf t i CaT w = (Ret CaT', w1) ->
  (receive_tc_from_kafka json_loads np_isnan_list w1).1 = Ret PNone ->
  let run :=
    simulate_body json_loads np_isnan_list np_float64_of_object odeint
      Tf Caf t i CaT w in
  run.1 = Ret CaT' /\
  w_u run.2 = w_u w /\
  exists u_i1, inputs_used (new_events w run.2) = [u_i1] /\
               w_u run.2 !! (i + 1) = Some u_i1.
Proof.
  intros HIP Hr. cbn zeta.
  destruct (simulate_body_calls json_loads np_isnan_list np_float64_of_object odeint
              Tf Caf t i CaT w) as (evs & E & D).
  rewrite (new_events_app _ _ _ E). revert E D.
  unfold simulate_body. rewrite run_bind, HIP, run_bind.
  rewrite (await_command_exhausted _ _ _ _ _ Hr), run_ret. cbn [fst snd].
  pose proof (receive_keeps_u json_loads np_isnan_list w1) as Hu.
  pose proof (integrate_and_publish_keeps_u odeint Tf Caf t i CaT w) as Hu'.
  rewrite HIP in Hu'. unfold same in Hu, Hu'. cbn [snd] in Hu'.
  intros E [(? & _)|(t_i & t_i1 & u_i1 & _ & _ & Hlk & Hin & _)]; [done|].
  cbn [w_u add_event]. rewrite Hu, Hu'. split_and!; try done.
  by exists u_i1.
Qed.

(** C9: after any number [k] of iterations of the loop, whether or not the
    run is cut short by an exception, the array [u] has the length of the
    time grid it started with and slot 0 holds its initial value; the same
    holds after a whole call of [simulate_cstr]. *)
Theorem C9_length_and_seed_kept (Tf Caf : float) (t : list float) (k : nat)
    (CaT : list float * list float) (w : world) :
  length (w_u w) = length t ->
  let after_k :=
    (simulate_loop json_loads np_isnan_list np_float64_of_object odeint
       Tf Caf t (seq 0 k) CaT w).2 in
  let after_call :=
    (simulate_cstr json_loads np_isnan_list np_float64_of_object odeint Tf Caf t w).2 in
  (length (w_u after_k) = length t /\ w_u after_k !! 0 = w_u w !! 0) /\
  (length (w_u after_call) = length t /\ w_u after_call !! 0 = w_u w !! 0).
Proof.
  intros HL. cbn zeta.
  assert (Hloop : forall range CaT0 w0,
    w_u w0 = w_u w ->
    let w' := (simulate_loop json_loads np_isnan_list np_float64_of_object odeint
                 Tf Caf t range CaT0 w0).2 in
    length (w_u w') = length t /\ w_u w' !! 0 = w_u w !! 0).
  { intros range CaT0 w0 Hw0. cbn zeta.
    destruct (simulate_loop_writes json_loads np_isnan_list np_float64_of_object odeint
                Tf Caf t range CaT0 w0) as [Hlen Hkeep].
    rewrite Hlen, Hkeep, Hw0; [done|]. intros (j & _ & ?). lia. }
  split; [by apply Hloop|].
  unfold simulate_cstr. rewrite run_bind_emit, run_bind_gets, run_bind_lift.
  destruct (getitem _ 0) as [x0_0|e]; [|done].
  rewrite run_bind_lift.
  destruct (getitem _ 1) as [x0_1|e]; [|done].
  by apply Hloop.
Qed.

(** C10: [simulate_cstr] writes into the caller's list [x0]: an iteration
    [i] that ends regularly leaves in it the state just integrated,
    [(Ca[i+1], T[i+1])]; so when a call over a grid of at least two points
    returns [(Ca, T)], the caller's [x0] holds the final state
    [(Ca[len(t) - 1], T[len(t) - 1])]. *)
Theorem C10_x0_holds_final_state (Tf Caf : float) (t : list float) :
  (forall i CaT w Ca' T' w',
     simulate_body json_loads np_isnan_list np_float64_of_object odeint
       Tf Caf t i CaT w = (Ret (Ca', T'), w') ->
     exists ca temp,
       Ca' !! (i + 1) = Some ca /\ T' !! (i + 1) = Some temp /\
       w_x0 w' !! 0 = Some ca /\ w_x0 w' !! 1 = Some temp) /\
  (forall Ca T w w',
     simulate_cstr json_loads np_isnan_list np_float64_of_object odeint Tf Caf t w =
       (Ret (Ca, T), w') ->
     2 <= length t ->
     exists ca temp,
       Ca !! (length t - 1) = Some ca /\ T !! (length t - 1) = Some temp /\
       w_x0 w' !! 0 = Some ca /\ w_x0 w' !! 1 = Some temp).
Proof.
  split.
  - intros i CaT w Ca' T' w' H. by eapply simulate_body_x0.
  - unfold simulate_cstr. intros Ca T w w'.
    rewrite run_bind_emit, run_bind_gets, run_bind_lift.
    intros H Ht.
    destruct (getitem _ 0) as [x0_0|e]; [|done].
    rewrite run_bind_lift in H.
    destruct (getitem _ 1) as [x0_1|e]; [|done].
    destruct (length t - 1) as [|n] eqn:Hn; [lia|].
    apply simulate_loop_x0 in H. by rewrite Nat.add_0_l in H.
Qed.

(** C8: in a run of [simulate_cstr] that starts without the health-check
    file, the file is written exactly once if any telemetry message is sent
    and not at all otherwise; the write happens when exactly one message has
    been sent, that is with the first successful emission, and the file
    exists afterwards. *)
Theorem C8_marker_written_once (Tf Caf : float) (t : list float) (w : world) :
  w_healthcheck w = false ->
  let w' :=
    (simulate_cstr json_loads np_isnan_list np_float64_of_object odeint Tf Caf t w).2 in
  let evs := new_events w w' in
  marker_writes evs = (if any_sent evs then 1 else 0) /\
  (forall k, evs !! k = Some WriteHealthcheck -> length (sent (take k evs)) = 1) /\
  w_healthcheck w' = any_sent evs.
Proof.
  intros Hh. cbn zeta.
  destruct (simulate_cstr_marker_once json_loads np_isnan_list np_float64_of_object
              odeint Tf Caf t w) as (evs & E & Hh' & Hm & Hk).
  rewrite (new_events_app _ _ _ E), Hm, Hh', Hh. cbn [orb].
  split_and!; try done. by destruct (any_sent evs).
Qed.

End Claims.

Section ReceiverClaims.

Variable json_loads : string -> outcome pyval.
Variable np_isnan_list : list pyval -> outcome bool.

(** C2, as the code has it: when the inbound channel brings five idle
    timeouts, and up to the fifth of them only messages that are logged and
    skipped, the receiver returns None after exactly five failed attempts,
    each followed by one poll, and what follows the fifth timeout is left
    pending; and when a message that carries a control value is preceded only
    by harmless steps with fewer than five idle timeouts among them, the
    receiver returns that value at once: the attempts that failed are those
    that ran into the idle timeouts, and the rest of the channel is left
    pending. *)
Theorem C2_exhausted_after_five_or_first_value :
  (forall w pre rest,
     w_consumer w = pre ++ rest ->
     Forall (harmless json_loads np_isnan_list) pre ->
     5 <= count_idle pre ->
     let run := receive_tc_from_kafka json_loads np_isnan_list w in
     run.1 = Ret PNone /\
     w_consumer run.2 = after_idles 5 (w_consumer w) /\
     failed_attempts (new_events w run.2) = [1; 2; 3; 4; 5] /\
     polls (new_events w run.2) = 5) /\
  (forall w pre v tc rest,
     w_consumer w = pre ++ Record v :: rest ->
     Forall (harmless json_loads np_isnan_list) pre ->
     count_idle pre < 5 ->
     carries json_loads np_isnan_list v tc ->
     let run := receive_tc_from_kafka json_loads np_isnan_list w in
     run.1 = Ret tc /\
     w_consumer run.2 = rest /\
     failed_attempts (new_events w run.2) = seq 1 (count_idle pre) /\
     polls (new_events w run.2) = count_idle pre).
Proof.
  split.
  - intros w pre rest Hw F Hle. cbn zeta.
    rewrite Hw, after_idles_app by done.
    by apply receive_quiet.
  - intros w pre v tc rest Hw F Hlt Hv.
    by apply (receive_reach json_loads np_isnan_list w pre v tc rest).
Qed.

(** C5, as the code has it: a value other than None returned by the receiver
    is the "Tc" entry of a pending message (of the object the message is, or
    of the one its [str] value decodes to) on which [np.isnan] answers false:
    a float that is not NaN -- an infinity is accepted --, a bool, an int of
    at most 64 bits, or a list for which numpy's test comes out false. *)
Theorem C5_accepted_only_if_not_nan (w : world) (tc : pyval) :
  (receive_tc_from_kafka json_loads np_isnan_list w).1 = Ret tc ->
  tc <> PNone ->
  exists v value d,
    Record v ∈ w_consumer w /\
    decodes_to json_loads v value /\ value = PDict d /\
    dict_get d "Tc" = Some tc /\
    match tc with
    | PFloat f => Float64.isnan f = false
    | PBool _ => True
    | PInt z => (- 2 ^ 63 <= z < 2 ^ 64)%Z
    | PList l => np_isnan_list l = Ret false
    | PNone | PStr _ | PDict _ => False
    end.
Proof.
  intros Hr Htc.
  destruct (receive_Some json_loads np_isnan_list w tc Hr Htc)
    as (v & Hin & value & d & Hd & -> & Hget & Hnan).
  exists v, (PDict d), d. split_and!; try done.
  by apply np_isnan_false.
Qed.

(** C6, where the code fails: a message whose "Tc" is a string makes
    [np.isnan] raise a TypeError, which the [except] clause of line 61 does
    not catch; the call raises instead of logging and skipping the message. *)
Theorem C6_non_numeric_tc_raises (rest : list inbound) (w : world) :
  (receive_tc_from_kafka json_loads np_isnan_list
     (set_consumer (command (PStr "hot") :: rest) w)).1 = Raise TypeError.
Proof. reflexivity. Qed.

End ReceiverClaims.

(** C4, as the code has it: [send_data_to_kafka] always returns, and sends
    exactly one message when neither value is NaN -- infinite values
    included -- and none when either is NaN. *)
Theorem C4_one_message_unless_nan (ca temp : float) (w : world) :
  (send_data_to_kafka ca temp w).1 = Ret tt /\
  sent (new_events w (send_data_to_kafka ca temp w).2) =
    (if negb (Float64.isnan ca) && negb (Float64.isnan temp)
     then [(ca, temp)] else []) /\
  sent (new_events w (send_data_to_kafka Float64.nan temp w).2) = [] /\
  sent (new_events w (send_data_to_kafka ca Float64.nan w).2) = [].
Proof.
  assert (H : forall a b,
    sent (new_events w (send_data_to_kafka a b w).2) =
      if sendable a b then [(a, b)] else []).
  { intros a b.
    destruct (send_grows a b w) as (evs & E & _).
    pose proof (send_data_to_kafka_sent a b w) as Hs.
    rewrite (new_events_app _ _ _ E). rewrite E, sent_app in Hs.
    by apply app_inv_head in Hs. }
  split_and!.
  - by rewrite send_data_to_kafka_run.
  - apply H.
  - by rewrite H.
  - rewrite H. unfold sendable. by rewrite andb_false_r.
Qed.

(** C3, where the code fails: on the grid [0, 1, 2] with [u = [300, 300,
    300]], the command 305 accepted after step 0 is stored in [u[1]], but
    step 1 is integrated with [u[2]]: both solver calls get 300 and the
    accepted value is never used. *)
Theorem C3_accepted_value_never_integrated :
  let w := fresh [f64 300; f64 300; f64 300] [command (PFloat (f64 305))] in
  let run :=
    simulate_cstr no_json no_lists no_objects probe_solver (f64 350) (f64 1) grid w in
  is_ret run.1 = true /\
  w_u run.2 = [f64 300; f64 305; f64 300] /\
  inputs_used (w_trace run.2) = [f64 300; f64 300].
Proof. by vm_compute. Qed.

(** ** The claims on worked runs *)

(** A run over [grid] with distinct control inputs and a quiet channel: the
    temperatures the solver stand-in reports are the control inputs it was
    given, [u[1]] for step 0 and [u[2]] for step 1, not [u[0]] and [u[1]]. *)
Lemma C1_one_step_ahead_witness :
  let w := fresh [f64 300; f64 310; f64 320] [] in
  (simulate_cstr no_json no_lists no_objects probe_solver
     (f64 350) (f64 1) grid w).1 =
    Ret ([f64 1; f64 1; f64 2], [f64 324; f64 310; f64 320]) /\
  integrated_one_step_ahead probe_solver (f64 350) (f64 1) grid
    [f64 300; f64 310; f64 320] [f64 1; f64 324]
    [f64 1; f64 1; f64 2] [f64 324; f64 310; f64 320] 1.
Proof.
  cbn zeta.
  assert (E : (simulate_cstr no_json no_lists no_objects probe_solver
                 (f64 350) (f64 1) grid (fresh [f64 300; f64 310; f64 320] [])).1 =
              Ret ([f64 1; f64 1; f64 2], [f64 324; f64 310; f64 320]))
    by (by vm_compute).
  split; [exact E|].
  apply (proj1 (C1_one_step_ahead no_json no_lists no_objects probe_solver
                  (f64 350) (f64 1) grid (fresh [f64 300; f64 310; f64 320] []))
           _ _ E 1).
  unfold grid. cbn [length]. lia.
Defined.

(** Iteration 0 on a quiet channel: the receiver gives up and [u] is kept. *)
Lemma C7_exhausted_leaves_u_witness :
  let w := fresh [f64 300; f64 310; f64 320] [] in
  let CaT := (replicate 3 (f64 1), replicate 3 (f64 324)) in
  w_u (simulate_body no_json no_lists no_objects probe_solver
         (f64 350) (f64 1) grid 0 CaT w).2 = [f64 300; f64 310; f64 320].
Proof.
  cbn zeta.
  eapply (C7_exhausted_leaves_u no_json no_lists no_objects probe_solver).
  - vm_compute. reflexivity.
  - vm_compute. reflexivity.
Defined.

(** A run that publishes twice from a fresh process writes the marker once. *)
Lemma C8_marker_written_once_witness :
  let w := fresh [f64 300; f64 310; f64 320] [] in
  w_healthcheck w = false /\
  marker_writes
    (new_events w
       (simulate_cstr no_json no_lists no_objects probe_solver
          (f64 350) (f64 1) grid w).2) = 1.
Proof.
  cbn zeta. split; [reflexivity|].
  refine (eq_trans
    (proj1 (C8_marker_written_once no_json no_lists no_objects probe_solver
              (f64 350) (f64 1) grid (fresh [f64 300; f64 310; f64 320] []) _)) _).
  - reflexivity.
  - by vm_compute.
Defined.

(** Two iterations, a command accepted in the first: [u] keeps its length
    and its slot 0. *)
Lemma C9_length_and_seed_kept_witness :
  let w := fresh [f64 300; f64 310; f64 320] [command (PInt 305)] in
  let CaT := (replicate 3 (f64 1), replicate 3 (f64 324)) in
  length (w_u w) = length grid /\
  w_u (simulate_loop no_json no_lists no_objects probe_solver
         (f64 350) (f64 1) grid (seq 0 2) CaT w).2 !! 0 = Some (f64 300).
Proof.
  cbn zeta. split; [reflexivity|].
  refine (proj2 (proj1
    (C9_length_and_seed_kept no_json no_lists no_objects probe_solver
       (f64 350) (f64 1) grid 2 _ (fresh [f64 300; f64 310; f64 320] [command (PInt 305)])
       _))).
  reflexivity.
Defined.

(** After a run over [grid] the caller's [x0] holds [(Ca[2], T[2])]. *)
Lemma C10_x0_holds_final_state_witness :
  let w := fresh [f64 300; f64 310; f64 320] [] in
  let run :=
    simulate_cstr no_json no_lists no_objects probe_solver (f64 350) (f64 1) grid w in
  2 <= length grid /\
  w_x0 run.2 = [f64 2; f64 320] /\
  match run.1 with
  | Ret (Ca, T) =>
      exists ca temp,
        Ca !! (length grid - 1) = Some ca /\ T !! (length grid - 1) = Some temp /\
        w_x0 run.2 !! 0 = Some ca /\ w_x0 run.2 !! 1 = Some temp
  | Raise _ => False
  end.
Proof.
  cbn zeta. split_and!.
  - unfold grid. cbn [length]. lia.
  - vm_compute. reflexivity.
  - destruct (simulate_cstr no_json no_lists no_objects probe_solver
                (f64 350) (f64 1) grid (fresh [f64 300; f64 310; f64 320] []))
      as [[[Ca T]|e] w'] eqn:E; cbn [fst snd].
    + apply (proj2 (C10_x0_holds_final_state no_json no_lists no_objects probe_solver
                      (f64 350) (f64 1) grid) Ca T
               (fresh [f64 300; f64 310; f64 320] []) w' E).
      unfold grid. cbn [length]. lia.
    + vm_compute in E. discriminate E.
Defined.

(** Five idle timeouts with skipped messages in between exhaust the receiver,
    and the command behind the fifth timeout is left pending; a command
    behind one idle timeout is returned by the second attempt. *)
Lemma C2_exhausted_after_five_or_first_value_witness :
  (let run := receive_tc_from_kafka no_json no_lists
                (fresh [] [Record PNone; Idle; Record (PDict []); Idle; Idle;
                           command (PFloat Float64.nan); Idle; Idle;
                           command (PFloat (f64 305))]) in
   run.1 = Ret PNone /\
   w_consumer run.2 = [command (PFloat (f64 305))]) /\
  (let run := receive_tc_from_kafka no_json no_lists
                (fresh [] [Record PNone; Idle; command (PFloat (f64 305));
                           command (PFloat (f64 310))]) in
   run.1 = Ret (PFloat (f64 305)) /\
   w_consumer run.2 = [command (PFloat (f64 310))] /\
   failed_attempts (new_events
     (fresh [] [Record PNone; Idle; command (PFloat (f64 305));
                command (PFloat (f64 310))]) run.2) = [1]).
Proof.
  assert (Hnone : harmless no_json no_lists (Record PNone)) by (by left).
  split.
  - cbn zeta.
    destruct (proj1 (C2_exhausted_after_five_or_first_value no_json no_lists)
                (fresh [] [Record PNone; Idle; Record (PDict []); Idle; Idle;
                           command (PFloat Float64.nan); Idle; Idle;
                           command (PFloat (f64 305))])
                [Record PNone; Idle; Record (PDict []); Idle; Idle;
                 command (PFloat Float64.nan); Idle; Idle]
                [command (PFloat (f64 305))])
      as (H1 & H2 & _).
    + reflexivity.
    + apply Forall_cons; split; [exact Hnone|].
      apply Forall_cons; split; [exact I|].
      apply Forall_cons; split.
      { right; right. exists (PDict []), []. split_and!; [reflexivity..|by left]. }
      apply Forall_cons; split; [exact I|].
      apply Forall_cons; split; [exact I|].
      apply Forall_cons; split.
      { right; right.
        exists (PDict [("Tc", PFloat Float64.nan)]), [("Tc", PFloat Float64.nan)].
        split_and!; [reflexivity..|right]. by exists (PFloat Float64.nan). }
      apply Forall_cons; split; [exact I|].
      apply Forall_cons; split; [exact I|apply Forall_nil_2].
    + unfold command. cbn [count_idle]. lia.
    + split; [exact H1|exact H2].
  - cbn zeta.
    destruct (proj2 (C2_exhausted_after_five_or_first_value no_json no_lists)
                (fresh [] [Record PNone; Idle; command (PFloat (f64 305));
                           command (PFloat (f64 310))])
                [Record PNone; Idle] (PDict [("Tc", PFloat (f64 305))])
                (PFloat (f64 305)) [command (PFloat (f64 310))])
      as (H1 & H2 & H3 & _).
    + reflexivity.
    + apply Forall_cons; split; [exact Hnone|].
      apply Forall_cons; split; [exact I|apply Forall_nil_2].
    + cbn [count_idle]. lia.
    + exists (PDict [("Tc", PFloat (f64 305))]), [("Tc", PFloat (f64 305))].
      split_and!; reflexivity.
    + split_and!; [exact H1|exact H2|exact H3].
Defined.

(** The command 305.0 is accepted, and it is a float that is not NaN. *)
Lemma C5_accepted_only_if_not_nan_witness :
  let w := fresh [] [command (PFloat (f64 305))] in
  (receive_tc_from_kafka no_json no_lists w).1 = Ret (PFloat (f64 305)) /\
  exists v value d,
    Record v ∈ w_consumer w /\
    decodes_to no_json v value /\ value = PDict d /\
    dict_get d "Tc" = Some (PFloat (f64 305)) /\
    Float64.isnan (f64 305) = false.
Proof.
  cbn zeta. split; [by vm_compute|].
  apply (C5_accepted_only_if_not_nan no_json no_lists
           (fresh [] [command (PFloat (f64 305))]) (PFloat (f64 305))).
  - by vm_compute.
  - discriminate.
Defined.

(** *** Where the claims as worded fail *)

(** C2 as worded fails: a channel whose only message carries an infinite
    control value holds no finite one, yet the receiver returns the infinity
    instead of None; and a valid, finite command that arrives after five idle
    timeouts is not returned, the receiver has given up before. *)
Lemma C2_counterexample :
  Float64.isfinite Float64.inf = false /\
  (receive_tc_from_kafka no_json no_lists
     (fresh [] [command (PFloat Float64.inf)])).1 = Ret (PFloat Float64.inf) /\
  (receive_tc_from_kafka no_json no_lists
     (fresh [] [Idle; Idle; Idle; Idle; Idle; command (PFloat (f64 305))])).1 = Ret PNone.
Proof. by vm_compute. Qed.

(** C4 as worded fails: an infinite concentration is not finite, and the
    message is sent all the same. *)
Lemma C4_counterexample :
  Float64.isfinite Float64.inf && Float64.isfinite (f64 300) = false /\
  sent (new_events (fresh [] [])
          (send_data_to_kafka Float64.inf (f64 300) (fresh [] [])).2) =
    [(Float64.inf, f64 300)].
Proof. by vm_compute. Qed.

(** C5 as worded fails: a message whose control value is an infinity, which
    is not a finite real number, is accepted. *)
Lemma C5_counterexample :
  Float64.isfinite Float64.inf = false /\
  let run := receive_tc_from_kafka no_json no_lists
               (fresh [] [command (PFloat Float64.inf); Idle]) in
  run.1 = Ret (PFloat Float64.inf) /\ w_consumer run.2 = [Idle].
Proof. by vm_compute. Qed.

(** * Further properties of the script *)

(** ** The reactor model *)

Lemma cstr_constants :
  fdiv (Float64.of_Z 100) (Float64.of_Z 100) = Float64.one /\
  fdiv (Float64.of_Z 239) (Float64.of_Z 1000) = S754_finite false 8610882487532388 (-55).
Proof. by vm_compute. Qed.

(** NaN absorbs the operations of the model. *)

Lemma fmul_nan_r x : Float64.mul x S754_nan = S754_nan.
Proof. by destruct x. Qed.

Lemma fadd_nan_r x : fadd x S754_nan = S754_nan.
Proof. by destruct x. Qed.

Lemma fsub_nan_r x : fsub x S754_nan = S754_nan.
Proof. by destruct x. Qed.

Lemma fadd_nan_l x : fadd S754_nan x = S754_nan.
Proof. reflexivity. Qed.

Lemma isnan_eq x : Float64.isnan x = true -> x = S754_nan.
Proof. by destruct x. Qed.

Ltac nan_spread :=
  repeat first [ rewrite fmul_nan_r | rewrite fsub_nan_r
               | rewrite fadd_nan_r | rewrite fadd_nan_l ].

(** X1: NaN spreads through [cstr]: a NaN concentration makes both
    derivatives NaN, and a NaN temperature, control input or feed temperature
    makes the temperature derivative NaN, whatever [np.exp] returns. *)
Theorem X_cstr_nan_spreads (np_exp : float -> float) (Ca T t u Tf Caf : float) :
  (Float64.isnan Ca = true ->
   cstr np_exp [Ca; T] t u Tf Caf = Ret [S754_nan; S754_nan]) /\
  (Float64.isnan T = true \/ Float64.isnan u = true \/ Float64.isnan Tf = true ->
   exists dCadt, cstr np_exp [Ca; T] t u Tf Caf = Ret [dCadt; S754_nan]).
Proof.
  split.
  - intros ->%isnan_eq. unfold cstr. cbn [getitem lookup list_lookup].
    cbv zeta. by nan_spread.
  - intros H. unfold cstr. cbn [getitem lookup list_lookup]. cbv zeta.
    eexists. do 2 f_equal. f_equal.
    destruct H as [H|[H|H]]; apply isnan_eq in H; subst.
    + by nan_spread.
    + by nan_spread.
    + replace (fsub S754_nan T) with S754_nan by done. by nan_spread.
Qed.

(** A NaN concentration at 324 degrees. *)
Lemma X_cstr_nan_spreads_witness :
  cstr unit_exp [Float64.nan; f64 324] (f64 0) (f64 300) (f64 350) (f64 1) =
    Ret [S754_nan; S754_nan] /\
  exists dCadt,
    cstr unit_exp [f64 1; f64 324] (f64 0) Float64.nan (f64 350) (f64 1) =
      Ret [dCadt; S754_nan].
Proof.
  split.
  - apply (proj1 (X_cstr_nan_spreads unit_exp Float64.nan (f64 324)
                    (f64 0) (f64 300) (f64 350) (f64 1))).
    reflexivity.
  - apply (proj2 (X_cstr_nan_spreads unit_exp (f64 1) (f64 324)
                    (f64 0) Float64.nan (f64 350) (f64 1))).
    right; left. reflexivity.
Defined.

(** ** The command receiver *)

Section ReceiverFurther.

Variable json_loads : string -> outcome pyval.
Variable np_isnan_list : list pyval -> outcome bool.

(** The attempts made are numbered from the head of the range, one poll
    each, and all of the range is used up exactly when no value is found. *)
Lemma attempts_bounded range : forall w,
  exists evs,
    w_trace (attempts json_loads np_isnan_list range w).2 = w_trace w ++ evs /\
    failed_attempts evs = map (fun attempt => attempt + 1) (take (polls evs) range) /\
    polls evs <= length range /\
    ((attempts json_loads np_isnan_list range w).1 = Ret None <->
     polls evs = length range).
Proof.
  induction range as [|a range IH]; intros w.
  { cbn [attempts]. rewrite run_ret. exists []. by rewrite app_nil_r. }
  cbn [attempts]. unfold for_message_in_consumer. rewrite run_bind, run_bind_gets.
  destruct (poll_messages_grows json_loads np_isnan_list (w_consumer w) w)
    as (evs1 & E1 & F1).
  destruct (message_events_silent _ F1) as [Hf1 Hp1].
  destruct (poll_messages json_loads np_isnan_list (w_consumer w) w)
    as [[[tc|]|e] w1]; cbn [fst snd] in *.
  - rewrite run_ret. exists evs1. rewrite Hf1, Hp1. cbn. split_and!; try done; lia.
  - rewrite !run_bind_emit.
    set (w2 := add_event ConsumerPoll (add_event (Log INFO (AttemptFailed (a + 1))) w1)).
    destruct (IH w2) as (evs2 & E2 & Hf & Hle & Hiff).
    exists (evs1 ++ [Log INFO (AttemptFailed (a + 1)); ConsumerPoll] ++ evs2).
    rewrite !failed_attempts_app, !polls_app, Hf1, Hp1, Hf.
    cbn [app failed_attempts polls omap length Nat.add take map].
    split_and!; try done.
    + rewrite E2. subst w2. cbn. rewrite E1. by rewrite <- !app_assoc.
    + unfold polls in *. cbn. lia.
    + rewrite Hiff. unfold polls. cbn. lia.
  - exists evs1. rewrite Hf1, Hp1. cbn. split_and!; try done; lia.
Qed.

Lemma attempts_suffix range : forall w,
  suffix (w_consumer (attempts json_loads np_isnan_list range w).2) (w_consumer w).
Proof.
  induction range as [|a range IH]; intros w; [done|].
  cbn [attempts]. unfold for_message_in_consumer. rewrite run_bind, run_bind_gets.
  pose proof (poll_messages_suffix json_loads np_isnan_list (w_consumer w) w eq_refl)
    as Hs.
  destruct (poll_messages json_loads np_isnan_list (w_consumer w) w)
    as [[[tc|]|e] w1]; cbn [fst snd] in *; try done.
  rewrite !run_bind_emit. etrans; [apply IH|]. done.
Qed.

(** X2: whatever the channel holds, [receive_tc_from_kafka] leaves [u],
    [x0] and the health-check file alone, and all it does besides consuming
    records is to log and to poll: it never sends telemetry and never calls
    the solver. *)
Theorem X_receive_touches_nothing_else (w : world) :
  let w' := (receive_tc_from_kafka json_loads np_isnan_list w).2 in
  w_u w' = w_u w /\ w_x0 w' = w_x0 w /\ w_healthcheck w' = w_healthcheck w /\
  w_trace w' = w_trace w ++ new_events w w' /\
  Forall (fun e => receiver_event e = true) (new_events w w') /\
  sent (new_events w w') = [] /\ inputs_used (new_events w w') = [] /\
  marker_writes (new_events w w') = 0.
Proof.
  cbn zeta.
  destruct (receive_grows json_loads np_isnan_list w) as (evs & E & F).
  rewrite (new_events_app _ _ _ E).
  split_and!; try done.
  - apply receive_keeps_u.
  - apply receive_keeps_x0.
  - apply receive_keeps_healthcheck.
  - eapply omap_none_Forall; [|exact F]. by intros [].
  - eapply omap_none_Forall; [|exact F]. by intros [].
  - unfold marker_writes. erewrite omap_none_Forall; [done| |exact F]. by intros [].
Qed.

(** X3: whatever the channel holds -- also when the call raises -- at most
    five attempts are made: the attempts reported as failed are 1, 2, ... in
    order, each followed by one poll, and there are five of them exactly when
    the call returns None. *)
Theorem X_receive_at_most_five_attempts (w : world) :
  let run := receive_tc_from_kafka json_loads np_isnan_list w in
  let evs := new_events w run.2 in
  failed_attempts evs = seq 1 (polls evs) /\
  polls evs <= 5 /\
  (run.1 = Ret PNone <-> polls evs = 5).
Proof.
  cbn zeta. unfold receive_tc_from_kafka. rewrite run_bind_emit, run_bind.
  destruct (attempts_bounded (seq 0 5) (add_event (Log INFO Waiting) w))
    as (evs & E & Hf & Hle & Hiff).
  pose proof (attempts_Some json_loads np_isnan_list PNone (seq 0 5)
                (add_event (Log INFO Waiting) w)) as HS.
  rewrite length_seq in Hle, Hiff.
  assert (Hseq : failed_attempts evs = seq 1 (polls evs)).
  { rewrite Hf, take_seq, <- fmap_S_seq.
    replace (polls evs `min` 5) with (polls evs) by lia.
    apply map_ext. intros. lia. }
  cbn [w_trace add_event] in E.
  destruct (attempts json_loads np_isnan_list (seq 0 5) (add_event (Log INFO Waiting) w))
    as [[[tc|]|e] w1]; cbn [fst snd] in *.
  - rewrite run_ret. cbn [fst snd].
    rewrite (new_events_app _ _ ([Log INFO Waiting] ++ evs))
      by (by rewrite E, <- app_assoc).
    rewrite failed_attempts_app, polls_app.
    change (failed_attempts [Log INFO Waiting]) with (@nil nat).
    change (polls [Log INFO Waiting]) with 0.
    split_and!; try done. split.
    + intros [= ->]. destruct HS as (v & _ & value & d & _ & _ & _ & Hnan); [done|].
      discriminate Hnan.
    + intros Hp. apply Hiff in Hp. done.
  - rewrite run_bind_emit, run_ret. cbn [fst snd w_trace add_event].
    rewrite (new_events_app _ _ ([Log INFO Waiting] ++ evs ++ [Log INFO ExitingAfter5]))
      by (unfold add_event; cbn [w_trace]; by rewrite E, <- !app_assoc).
    rewrite !failed_attempts_app, !polls_app.
    change (failed_attempts [Log INFO Waiting]) with (@nil nat).
    change (polls [Log INFO Waiting]) with 0.
    change (failed_attempts [Log INFO ExitingAfter5]) with (@nil nat).
    change (polls [Log INFO ExitingAfter5]) with 0.
    rewrite app_nil_r, Nat.add_0_r.
    split_and!; try done. split; [intros _; by apply Hiff|done].
  - rewrite (new_events_app _ _ ([Log INFO Waiting] ++ evs))
      by (by rewrite E, <- app_assoc).
    rewrite failed_attempts_app, polls_app.
    change (failed_attempts [Log INFO Waiting]) with (@nil nat).
    change (polls [Log INFO Waiting]) with 0.
    split_and!; try done. split; [done|].
    intros Hp. apply Hiff in Hp. done.
Qed.

(** X4: the receiver only consumes: what is pending after the call is a
    final part of what was pending before. *)
Theorem X_receive_only_consumes (w : world) :
  suffix (w_consumer (receive_tc_from_kafka json_loads np_isnan_list w).2)
         (w_consumer w).
Proof.
  unfold receive_tc_from_kafka. rewrite run_bind_emit, run_bind.
  pose proof (attempts_suffix (seq 0 5) (add_event (Log INFO Waiting) w)) as Hs.
  destruct (attempts json_loads np_isnan_list (seq 0 5) (add_event (Log INFO Waiting) w))
    as [[[tc|]|e] w1]; cbn [fst snd] in *; try done.
Qed.

(** X5: a message that is not an object -- a number, a boolean, a list, or a
    [str] that decodes to anything but an object -- makes the call raise
    TypeError when it is subscripted; the message is consumed, what follows
    it stays pending. *)
Theorem X_receive_non_object_raises (v value : pyval) (rest : list inbound) (w : world) :
  decodes_to json_loads v value ->
  not_an_object value ->
  let run := receive_tc_from_kafka json_loads np_isnan_list
               (set_consumer (Record v :: rest) w) in
  run.1 = Raise TypeError /\ w_consumer run.2 = rest.
Proof.
  intros Hd Hv. cbn zeta.
  unfold receive_tc_from_kafka. rewrite run_bind_emit, run_bind.
  cbn [seq attempts]. unfold for_message_in_consumer.
  rewrite run_bind, run_bind_gets. cbn [w_consumer add_event set_consumer poll_messages].
  rewrite run_bind_modify, run_bind.
  set (w1 := set_consumer rest _).
  pose proof (process_message_verdict json_loads np_isnan_list v w1) as Hr.
  pose proof (process_message_keeps_consumer json_loads np_isnan_list v w1) as Hc.
  assert (Hverdict : verdict json_loads np_isnan_list v = Raise TypeError).
  { unfold verdict. destruct v; cbn in Hd; try done; subst; try done.
    rewrite Hd. by destruct value. }
  rewrite Hverdict in Hr.
  destruct (process_message json_loads np_isnan_list v w1) as [r w2].
  cbn [fst snd] in *. subst r. done.
Qed.

End ReceiverFurther.

(** The payload 305, a bare number. *)
Lemma X_receive_non_object_raises_witness :
  let run := receive_tc_from_kafka no_json no_lists
               (set_consumer [Record (PInt 305); Idle] (fresh [] [])) in
  run.1 = Raise TypeError /\ w_consumer run.2 = [Idle].
Proof.
  apply (X_receive_non_object_raises no_json no_lists (PInt 305) (PInt 305)).
  - reflexivity.
  - exact I.
Defined.

(** ** The simulation loop *)

Lemma new_events_refl (w : world) : new_events w w = [].
Proof. apply new_events_app. by rewrite app_nil_r. Qed.

Lemma new_events_trans (w w1 w2 : world) (evs1 evs2 : list event) :
  w_trace w1 = w_trace w ++ evs1 -> w_trace w2 = w_trace w1 ++ evs2 ->
  w_trace w2 = w_trace w ++ evs1 ++ evs2.
Proof. intros -> ->. by rewrite app_assoc. Qed.

Section LoopFurther.

Variable json_loads : string -> outcome pyval.
Variable np_isnan_list : list pyval -> outcome bool.
Variable np_float64_of_object : pyval -> outcome float.
Variable odeint :
  list float -> float -> float -> float -> float -> float -> outcome (float * float).

(** [integrate_and_publish] in closed form, when every step of it succeeds. *)
Lemma integrate_and_publish_ok Tf Caf t i Ca T w t_i t_i1 u_i1 ca temp :
  t !! i = Some t_i -> t !! (i + 1) = Some t_i1 -> w_u w !! (i + 1) = Some u_i1 ->
  odeint (w_x0 w) t_i t_i1 u_i1 Tf Caf = Ret (ca, temp) ->
  i + 1 < length Ca -> i + 1 < length T -> 1 < length (w_x0 w) ->
  integrate_and_publish odeint Tf Caf t i (Ca, T) w =
  (Ret (<[i + 1 := ca]> Ca, <[i + 1 := temp]> T),
   World (w_consumer w) (w_healthcheck w || sendable ca temp) (w_u w)
     (<[1 := temp]> (<[0 := ca]> (w_x0 w)))
     (w_trace w ++
        [Log INFO (CallingOdeint i (w_x0 w) u_i1 Tf Caf);
         Odeint (w_x0 w) t_i t_i1 u_i1 Tf Caf;
         Log INFO (IterationResult i ca temp u_i1);
         Log INFO SendingData] ++
        publish_events (w_healthcheck w) ca temp)).
Proof.
  intros Ht0%getitem_Ret Ht1%getitem_Ret Hu%getitem_Ret Ho HCa HT Hx.
  assert (HsCa : setitem Ca (i + 1) ca = Ret (<[i + 1 := ca]> Ca))
    by by apply setitem_Ret.
  assert (HsT : setitem T (i + 1) temp = Ret (<[i + 1 := temp]> T))
    by by apply setitem_Ret.
  assert (Hs0 : setitem (w_x0 w) 0 ca = Ret (<[0 := ca]> (w_x0 w)))
    by (apply setitem_Ret; split; [lia|done]).
  assert (Hs1 : setitem (<[0 := ca]> (w_x0 w)) 1 temp =
                Ret (<[1 := temp]> (<[0 := ca]> (w_x0 w))))
    by (apply setitem_Ret; split; [by rewrite length_insert|done]).
  unfold integrate_and_publish.
  rewrite run_bind_lift, Ht0, run_bind_lift, Ht1, !run_bind_gets, run_bind_lift, Hu.
  rewrite !run_bind_emit, run_bind_lift, Ho. cbn [fst snd].
  rewrite run_bind_lift, HsCa, run_bind_lift, HsT.
  rewrite run_bind_lift, (getitem_insert _ _ _ HCa), run_bind_lift, Hs0.
  rewrite run_bind_modify, run_bind_lift, (getitem_insert _ _ _ HT), run_bind_lift, Hs1.
  rewrite run_bind_modify, run_bind_lift, !run_bind_emit, run_bind.
  rewrite send_data_to_kafka_run, run_ret.
  unfold publish_events, add_event, set_x0. cbn [w_consumer w_healthcheck w_u w_x0 w_trace].
  destruct (sendable ca temp).
  - rewrite orb_true_r. by rewrite <- !app_assoc.
  - rewrite orb_false_r. by rewrite <- !app_assoc.
Qed.

(** The same, read from a regular end. *)
Lemma integrate_and_publish_Ret_world Tf Caf t i Ca T w Ca' T' w' :
  integrate_and_publish odeint Tf Caf t i (Ca, T) w = (Ret (Ca', T'), w') ->
  exists t_i t_i1 u_i1 ca temp,
    t !! i = Some t_i /\ t !! (i + 1) = Some t_i1 /\ w_u w !! (i + 1) = Some u_i1 /\
    odeint (w_x0 w) t_i t_i1 u_i1 Tf Caf = Ret (ca, temp) /\
    i + 1 < length Ca /\ Ca' = <[i + 1 := ca]> Ca /\
    i + 1 < length T /\ T' = <[i + 1 := temp]> T /\
    1 < length (w_x0 w) /\
    w' = World (w_consumer w) (w_healthcheck w || sendable ca temp) (w_u w)
           (<[1 := temp]> (<[0 := ca]> (w_x0 w)))
           (w_trace w ++
              [Log INFO (CallingOdeint i (w_x0 w) u_i1 Tf Caf);
               Odeint (w_x0 w) t_i t_i1 u_i1 Tf Caf;
               Log INFO (IterationResult i ca temp u_i1);
               Log INFO SendingData] ++
              publish_events (w_healthcheck w) ca temp).
Proof.
  intros H.
  destruct (integrate_and_publish_Ret odeint Tf Caf t i Ca T w Ca' T' w' H)
    as (t_i & t_i1 & u_i1 & ca & temp & Ht0 & Ht1 & Hu & Ho & HCa & -> & HT & -> & Hx & _).
  rewrite (integrate_and_publish_ok Tf Caf t i Ca T w t_i t_i1 u_i1 ca temp) in H by done.
  injection H as <-.
  by exists t_i, t_i1, u_i1, ca, temp.
Qed.

Lemma sent_publish_events h ca temp :
  sent (publish_events h ca temp) = if sendable ca temp then [(ca, temp)] else [].
Proof. unfold publish_events. destruct (sendable ca temp), h; done. Qed.

(** A regular end of an iteration, taken apart. *)
Lemma simulate_body_Ret Tf Caf t i CaT w CaT' w' :
  simulate_body json_loads np_isnan_list np_float64_of_object odeint
    Tf Caf t i CaT w = (Ret CaT', w') ->
  exists w1,
    integrate_and_publish odeint Tf Caf t i CaT w = (Ret CaT', w1) /\
    await_command json_loads np_isnan_list np_float64_of_object i w1 = (Ret tt, w').
Proof.
  unfold simulate_body. rewrite run_bind.
  destruct (integrate_and_publish odeint Tf Caf t i CaT w)
    as [[CaT1|] w1] eqn:HIP; [|done].
  rewrite run_bind.
  destruct (await_command json_loads np_isnan_list np_float64_of_object i w1)
    as [[[]|] w2] eqn:HA; [|done].
  rewrite run_ret. intros H. injection H as <- <-.
  exists w1. by rewrite HA.
Qed.

End LoopFurther.

Section RunFurther.

Variable json_loads : string -> outcome pyval.
Variable np_isnan_list : list pyval -> outcome bool.
Variable np_float64_of_object : pyval -> outcome float.
Variable odeint :
  list float -> float -> float -> float -> float -> float -> outcome (float * float).

(** X6: with fewer than two entries in [x0], [simulate_cstr] raises
    IndexError at line 113 or 114: it has logged its entry and done nothing
    else. *)
Theorem X_simulate_short_x0_raises (Tf Caf : float) (t : list float) (w : world) :
  length (w_x0 w) < 2 ->
  simulate_cstr json_loads np_isnan_list np_float64_of_object odeint Tf Caf t w =
    (Raise IndexError, add_event (Log INFO Entered) w).
Proof.
  intros Hx. unfold simulate_cstr.
  rewrite run_bind_emit, run_bind_gets, run_bind_lift.
  unfold add_event at 1 2. cbn [w_x0].
  destruct (w_x0 w) as [|a [|b x]]; cbn in Hx |- *; [done|done|lia].
Qed.

(** X7: on a grid of at most one point the loop body never runs:
    [simulate_cstr] returns the arrays filled with [1.0 * x0[0]] and
    [1.0 * x0[1]], of the length of the grid, and has only logged its entry:
    no solver call, no telemetry, nothing consumed, [x0] and [u] as they
    were. *)
Theorem X_simulate_trivial_grid (Tf Caf : float) (t : list float) (w : world)
    (x0_0 x0_1 : float) :
  length t <= 1 ->
  w_x0 w !! 0 = Some x0_0 ->
  w_x0 w !! 1 = Some x0_1 ->
  simulate_cstr json_loads np_isnan_list np_float64_of_object odeint Tf Caf t w =
    (Ret (replicate (length t) (Float64.mul Float64.one x0_0),
          replicate (length t) (Float64.mul Float64.one x0_1)),
     add_event (Log INFO Entered) w).
Proof.
  intros Ht H0%getitem_Ret H1%getitem_Ret. unfold simulate_cstr.
  rewrite run_bind_emit, run_bind_gets, run_bind_lift.
  unfold add_event at 1 2. cbn [w_x0]. rewrite H0, run_bind_lift, H1.
  replace (length t - 1) with 0 by lia. done.
Qed.

(** X8: when [u] has no slot [i + 1], iteration [i] raises IndexError before
    it logs, calls the solver or writes anything: the world is untouched. *)
Theorem X_iteration_short_u_raises (Tf Caf : float) (t : list float) (i : nat)
    (CaT : list float * list float) (w : world) :
  w_u w !! (i + 1) = None ->
  simulate_body json_loads np_isnan_list np_float64_of_object odeint
    Tf Caf t i CaT w = (Raise IndexError, w).
Proof.
  intros Hu. unfold simulate_body, integrate_and_publish. destruct CaT as [Ca T].
  rewrite run_bind, run_bind_lift.
  unfold getitem at 1. destruct (t !! i); [|done].
  rewrite run_bind_lift. unfold getitem at 1. destruct (t !! (i + 1)); [|done].
  rewrite !run_bind_gets, run_bind_lift. unfold getitem at 1. by rewrite Hu.
Qed.

(** X9: when the solver raises in iteration [i], the iteration raises the
    same exception; the call has been logged, but [x0], [u], the inbound
    channel and the health-check file are as before the iteration and no
    telemetry is sent. *)
Theorem X_iteration_solver_failure (Tf Caf : float) (t : list float) (i : nat)
    (CaT : list float * list float) (w : world) (t_i t_i1 u_i1 : float) (e : exn) :
  t !! i = Some t_i -> t !! (i + 1) = Some t_i1 -> w_u w !! (i + 1) = Some u_i1 ->
  odeint (w_x0 w) t_i t_i1 u_i1 Tf Caf = Raise e ->
  let run :=
    simulate_body json_loads np_isnan_list np_float64_of_object odeint
      Tf Caf t i CaT w in
  run.1 = Raise e /\
  w_x0 run.2 = w_x0 w /\ w_u run.2 = w_u w /\
  w_consumer run.2 = w_consumer w /\ w_healthcheck run.2 = w_healthcheck w /\
  new_events w run.2 =
    [Log INFO (CallingOdeint i (w_x0 w) u_i1 Tf Caf);
     Odeint (w_x0 w) t_i t_i1 u_i1 Tf Caf].
Proof.
  intros Ht0%getitem_Ret Ht1%getitem_Ret Hu%getitem_Ret Ho. cbn zeta.
  unfold simulate_body, integrate_and_publish. destruct CaT as [Ca T].
  rewrite run_bind, run_bind_lift, Ht0, run_bind_lift, Ht1.
  rewrite !run_bind_gets, run_bind_lift, Hu, !run_bind_emit, run_bind_lift, Ho.
  cbn [fst snd]. split_and!; try done.
  apply new_events_app. unfold add_event. cbn [w_trace]. by rewrite <- app_assoc.
Qed.

(** X10: when the receiver returns a value in iteration [i], a value that the
    float64 array takes as [x], the iteration ends regularly with [x] stored
    in [u[i+1]] and every other slot of [u] as before. *)
Theorem X_iteration_stores_command (Tf Caf : float) (t : list float) (i : nat)
    (CaT CaT' : list float * list float) (w w1 : world) (tc : pyval) (x : float) :
  integrate_and_publish odeint Tf Caf t i CaT w = (Ret CaT', w1) ->
  (receive_tc_from_kafka json_loads np_isnan_list w1).1 = Ret tc ->
  tc <> PNone ->
  np_float64 np_float64_of_object tc = Ret x ->
  let run :=
    simulate_body json_loads np_isnan_list np_float64_of_object odeint
      Tf Caf t i CaT w in
  run.1 = Ret CaT' /\ w_u run.2 = <[i + 1 := x]> (w_u w).
Proof.
  intros HIP Hr Htc Hx. cbn zeta.
  pose proof (integrate_and_publish_keeps_u odeint Tf Caf t i CaT w) as Hu.
  rewrite HIP in Hu. unfold same in Hu. cbn [snd] in Hu.
  destruct CaT as [Ca T], CaT' as [Ca' T'].
  destruct (integrate_and_publish_Ret odeint Tf Caf t i Ca T w Ca' T' w1 HIP)
    as (t_i & t_i1 & u_i1 & ca & temp & _ & _ & Hlk & _).
  apply lookup_lt_Some in Hlk. rewrite <- Hu in Hlk.
  unfold simulate_body. rewrite run_bind, HIP, run_bind.
  rewrite (await_command_accepted json_loads np_isnan_list np_float64_of_object
             i w1 tc x Hr Htc Hx Hlk), run_ret.
  cbn [fst snd set_u w_u]. by rewrite Hu.
Qed.

(** X11: in a run of [simulate_cstr] that starts with the health-check file
    in place, the file is never written, and it is still there afterwards. *)
Theorem X_marker_not_rewritten (Tf Caf : float) (t : list float) (w : world) :
  w_healthcheck w = true ->
  let w' :=
    (simulate_cstr json_loads np_isnan_list np_float64_of_object odeint Tf Caf t w).2 in
  marker_writes (new_events w w') = 0 /\ w_healthcheck w' = true.
Proof.
  intros Hh. cbn zeta.
  destruct (simulate_cstr_marker_once json_loads np_isnan_list np_float64_of_object
              odeint Tf Caf t w) as (evs & E & Hh' & Hm & _).
  rewrite (new_events_app _ _ _ E), Hm, Hh', Hh. done.
Qed.

End RunFurther.

Lemma publishable_cons (ca temp : float) (Ca T : list float) :
  publishable (ca :: Ca) (temp :: T) =
  (if sendable ca temp then [(ca, temp)] else []) ++ publishable Ca T.
Proof.
  unfold publishable. cbn [zip zip_with]. rewrite filter_cons. cbn [fst snd].
  destruct (sendable ca temp); by case_decide.
Qed.

Section Arrays.

Variable json_loads : string -> outcome pyval.
Variable np_isnan_list : list pyval -> outcome bool.
Variable np_float64_of_object : pyval -> outcome float.
Variable odeint :
  list float -> float -> float -> float -> float -> float -> outcome (float * float).

(** A regular end of the iterations [a], ..., [a + n - 1]: the arrays keep
    their length and their entries up to index [a]; the telemetry sent
    consists of the states stored at the indices [a + 1], ..., [a + n] that
    hold no NaN, in order. *)
Lemma simulate_loop_Ret Tf Caf t n : forall a Ca T w Ca' T' w',
  simulate_loop json_loads np_isnan_list np_float64_of_object odeint
    Tf Caf t (seq a n) (Ca, T) w = (Ret (Ca', T'), w') ->
  length Ca' = length Ca /\ length T' = length T /\
  take (a + 1) Ca' = take (a + 1) Ca /\ take (a + 1) T' = take (a + 1) T /\
  sent (new_events w w') =
    publishable (take n (drop (a + 1) Ca')) (take n (drop (a + 1) T')).
Proof.
  induction n as [|n IH]; intros a Ca T w Ca' T' w'.
  { cbn [seq simulate_loop]. rewrite run_ret. intros [= <- <- <-].
    by rewrite new_events_refl. }
  cbn [seq simulate_loop]. rewrite run_bind.
  destruct (simulate_body json_loads np_isnan_list np_float64_of_object odeint
              Tf Caf t a (Ca, T) w) as [[[Ca1 T1]|] w2] eqn:Hb; [|done].
  intros H.
  apply simulate_body_Ret in Hb as (w1 & HIP & HA).
  apply integrate_and_publish_Ret_world in HIP
    as (t_i & t_i1 & u_i1 & ca & temp & _ & _ & _ & _ & HCa & -> & HT & -> & _ & Hw1).
  destruct (await_command_grows json_loads np_isnan_list np_float64_of_object a w1)
    as (evs2 & E2 & F2).
  rewrite HA in E2. cbn [snd] in E2.
  destruct (simulate_loop_calls json_loads np_isnan_list np_float64_of_object odeint
              Tf Caf t n (S a) (<[a + 1 := ca]> Ca, <[a + 1 := temp]> T) w2)
    as (evs3 & E3 & _).
  rewrite H in E3. cbn [snd] in E3.
  apply IH in H as (HL1 & HL2 & Htk1 & Htk2 & Hsent).
  rewrite (new_events_app _ _ _ E3) in Hsent.
  rewrite length_insert in HL1, HL2.
  assert (Hca : Ca' !! (a + 1) = Some ca).
  { rewrite <- (lookup_take_lt Ca' (S a + 1)) by lia. rewrite Htk1.
    rewrite lookup_take_lt by lia. by apply list_lookup_insert_eq. }
  assert (Htemp : T' !! (a + 1) = Some temp).
  { rewrite <- (lookup_take_lt T' (S a + 1)) by lia. rewrite Htk2.
    rewrite lookup_take_lt by lia. by apply list_lookup_insert_eq. }
  split_and!; try done.
  - apply (f_equal (take (a + 1))) in Htk1. rewrite !take_take in Htk1.
    replace ((a + 1) `min` (S a + 1)) with (a + 1) in Htk1 by lia.
    by rewrite take_insert_ge in Htk1 by lia.
  - apply (f_equal (take (a + 1))) in Htk2. rewrite !take_take in Htk2.
    replace ((a + 1) `min` (S a + 1)) with (a + 1) in Htk2 by lia.
    by rewrite take_insert_ge in Htk2 by lia.
  - rewrite (drop_S _ _ _ Hca), (drop_S _ _ _ Htemp). cbn [take].
    rewrite publishable_cons.
    replace (S (a + 1)) with (S a + 1) by lia. rewrite <- Hsent.
    rewrite (new_events_app w w'
               (([Log INFO (CallingOdeint a (w_x0 w) u_i1 Tf Caf);
                  Odeint (w_x0 w) t_i t_i1 u_i1 Tf Caf;
                  Log INFO (IterationResult a ca temp u_i1);
                  Log INFO SendingData] ++
                 publish_events (w_healthcheck w) ca temp) ++ evs2 ++ evs3)).
    + rewrite !sent_app, sent_publish_events.
      replace (sent evs2) with (@nil (float * float)); [done|].
      symmetry. eapply omap_none_Forall; [|exact F2]. by intros [].
    + rewrite E3, E2, Hw1. cbn [w_trace]. by rewrite <- !app_assoc.
Qed.

(** X12: when [simulate_cstr] returns [(Ca, T)], both arrays have the length
    of the time grid and, on a grid that is not empty, begin with
    [1.0 * x0[0]] and [1.0 * x0[1]] for the [x0] the call was given. *)
Theorem X_simulate_returns_grid_arrays (Tf Caf : float) (t Ca T : list float)
    (w w' : world) :
  simulate_cstr json_loads np_isnan_list np_float64_of_object odeint Tf Caf t w =
    (Ret (Ca, T), w') ->
  length Ca = length t /\ length T = length t /\
  exists x0_0 x0_1,
    w_x0 w !! 0 = Some x0_0 /\ w_x0 w !! 1 = Some x0_1 /\
    (0 < length t ->
     Ca !! 0 = Some (Float64.mul Float64.one x0_0) /\
     T !! 0 = Some (Float64.mul Float64.one x0_1)).
Proof.
  unfold simulate_cstr. rewrite run_bind_emit, run_bind_gets, run_bind_lift.
  unfold add_event at 1 2. cbn [w_x0].
  destruct (getitem (w_x0 w) 0) as [x0_0|] eqn:H0; [|done].
  rewrite run_bind_lift.
  destruct (getitem (w_x0 w) 1) as [x0_1|] eqn:H1; [|done].
  intros (HL1 & HL2 & Htk1 & Htk2 & _)%simulate_loop_Ret.
  rewrite length_replicate in HL1, HL2.
  apply getitem_Ret in H0, H1.
  split_and!; try done. exists x0_0, x0_1. split_and!; try done.
  intros Ht. split.
  - rewrite <- (lookup_take_lt Ca (0 + 1)) by lia. rewrite Htk1.
    rewrite lookup_take_lt by lia. by apply lookup_replicate_2.
  - rewrite <- (lookup_take_lt T (0 + 1)) by lia. rewrite Htk2.
    rewrite lookup_take_lt by lia. by apply lookup_replicate_2.
Qed.

(** X13: when [simulate_cstr] returns [(Ca, T)], the telemetry it has sent
    is, in order, the states [(Ca[k], T[k])] for [k = 1, ..., len(t) - 1]
    that hold no NaN: one message for each such state, the initial state
    [(Ca[0], T[0])] is never published. *)
Theorem X_simulate_publishes_states (Tf Caf : float) (t Ca T : list float)
    (w w' : world) :
  simulate_cstr json_loads np_isnan_list np_float64_of_object odeint Tf Caf t w =
    (Ret (Ca, T), w') ->
  sent (new_events w w') = publishable (drop 1 Ca) (drop 1 T).
Proof.
  unfold simulate_cstr.
  rewrite run_bind_emit, run_bind_gets, run_bind_lift.
  unfold add_event at 1 2. cbn [w_x0].
  destruct (getitem (w_x0 w) 0) as [x0_0|] eqn:H0; [|done].
  rewrite run_bind_lift.
  destruct (getitem (w_x0 w) 1) as [x0_1|] eqn:H1; [|done].
  intros H.
  destruct (simulate_loop_calls json_loads np_isnan_list np_float64_of_object odeint
              Tf Caf t (length t - 1) 0
              (replicate (length t) (Float64.mul Float64.one x0_0),
               replicate (length t) (Float64.mul Float64.one x0_1))
              (add_event (Log INFO Entered) w)) as (evs & E & _).
  rewrite H in E. cbn [snd] in E.
  apply simulate_loop_Ret in H as (HL1 & HL2 & _ & _ & Hsent).
  rewrite length_replicate in HL1, HL2.
  rewrite (new_events_app _ _ _ E) in Hsent.
  rewrite (new_events_app w w' ([Log INFO Entered] ++ evs))
    by (rewrite E; unfold add_event; cbn [w_trace]; by rewrite <- app_assoc).
  rewrite sent_app. cbn [sent omap app]. change (omap _ evs) with (sent evs).
  rewrite Hsent. cbn [Nat.add].
  by rewrite !take_ge by (rewrite length_drop; lia).
Qed.

End Arrays.

Section Runs.

Variable json_loads : string -> outcome pyval.
Variable np_isnan_list : list pyval -> outcome bool.
Variable np_float64_of_object : pyval -> outcome float.
Variable odeint :
  list float -> float -> float -> float -> float -> float -> outcome (float * float).

(** With a solver that never raises, arrays as long as the grid, a slot of
    [u] for every grid point, two entries in [x0] and a channel that brings
    five idle timeouts for each iteration, and only harmless steps up to the
    last of them, the iterations [a], ..., [a + n - 1] all end regularly and
    leave [u] alone; what follows the last of these timeouts is left
    pending. *)
Lemma simulate_loop_quiet Tf Caf t n : forall a Ca T w pre rest,
  (forall x0 t0 t1 ui1, is_ret (odeint x0 t0 t1 ui1 Tf Caf) = true) ->
  (n = 0 \/ a + n < length t) ->
  length Ca = length t -> length T = length t ->
  length t <= length (w_u w) -> 1 < length (w_x0 w) ->
  w_consumer w = pre ++ rest ->
  Forall (harmless json_loads np_isnan_list) pre ->
  5 * n <= count_idle pre ->
  exists Ca' T' w',
    simulate_loop json_loads np_isnan_list np_float64_of_object odeint
      Tf Caf t (seq a n) (Ca, T) w = (Ret (Ca', T'), w') /\
    w_u w' = w_u w /\
    w_consumer w' = after_idles (5 * n) pre ++ rest.
Proof.
  induction n as [|n IH]; intros a Ca T w pre rest Ho Hn HCa HT Hu Hx Hw F Hle.
  { cbn [seq simulate_loop]. rewrite run_ret. by exists Ca, T, w. }
  destruct Hn as [|Hn]; [done|].
  cbn [seq simulate_loop]. rewrite run_bind. unfold simulate_body. rewrite run_bind.
  destruct (lookup_lt_is_Some_2 t a) as [t_i Ht0]; [lia|].
  destruct (lookup_lt_is_Some_2 t (a + 1)) as [t_i1 Ht1]; [lia|].
  destruct (lookup_lt_is_Some_2 (w_u w) (a + 1)) as [u_i1 Hlk]; [lia|].
  specialize (Ho (w_x0 w) t_i t_i1 u_i1) as Hret.
  destruct (odeint (w_x0 w) t_i t_i1 u_i1 Tf Caf) as [[ca temp]|] eqn:Hode; [|done].
  rewrite (integrate_and_publish_ok odeint Tf Caf t a Ca T w t_i t_i1 u_i1 ca temp)
    by (done || lia).
  set (w1 := World _ _ _ _ _).
  rewrite run_bind.
  assert (Hw1 : w_consumer w1 = pre ++ rest) by done.
  destruct (receive_quiet json_loads np_isnan_list w1 pre rest Hw1 F) as (Hr & Hc & _);
    [lia|].
  rewrite (await_command_exhausted json_loads np_isnan_list np_float64_of_object
             a w1 Hr), run_ret.
  set (w2 := add_event _ _).
  destruct (IH (S a) (<[a + 1 := ca]> Ca) (<[a + 1 := temp]> T) w2
              (after_idles 5 pre) rest)
    as (Ca' & T' & w' & Hloop & Hu' & Hc'); try done.
  - right. lia.
  - by rewrite length_insert.
  - by rewrite length_insert.
  - subst w2. cbn [w_u add_event].
    rewrite (receive_keeps_u json_loads np_isnan_list w1). done.
  - subst w2. cbn [w_x0 add_event].
    rewrite (receive_keeps_x0 json_loads np_isnan_list w1).
    subst w1. cbn [w_x0]. by rewrite !length_insert.
  - by apply after_idles_harmless.
  - rewrite count_idle_after_idles. lia.
  - exists Ca', T', w'. split_and!; [done| |].
    + rewrite Hu'. subst w2. cbn [w_u add_event].
      by rewrite (receive_keeps_u json_loads np_isnan_list w1).
    + rewrite Hc'. replace (5 * S n) with (5 + 5 * n) by lia.
      by rewrite after_idles_add.
Qed.

(** X14: the quiet run.  With a solver that never raises, a slot of [u] for
    every grid point, two entries in [x0] and an inbound channel that brings
    five idle timeouts for each of the [len(t) - 1] iterations, and up to the
    last of them only messages the receiver skips, [simulate_cstr] returns:
    it has called the solver [len(t) - 1] times, [u] is as it was, and what
    follows the last of these timeouts is left pending. *)
Theorem X_simulate_quiet_run (Tf Caf : float) (t : list float) (w : world)
    (pre rest : list inbound) :
  (forall x0 t0 t1 ui1, is_ret (odeint x0 t0 t1 ui1 Tf Caf) = true) ->
  length t <= length (w_u w) ->
  1 < length (w_x0 w) ->
  w_consumer w = pre ++ rest ->
  Forall (harmless json_loads np_isnan_list) pre ->
  5 * (length t - 1) <= count_idle pre ->
  let run :=
    simulate_cstr json_loads np_isnan_list np_float64_of_object odeint Tf Caf t w in
  is_ret run.1 = true /\
  w_u run.2 = w_u w /\
  w_consumer run.2 = after_idles (5 * (length t - 1)) (w_consumer w) /\
  length (inputs_used (new_events w run.2)) = length t - 1.
Proof.
  intros Ho Hu Hx Hw F Hle. cbn zeta. unfold simulate_cstr.
  rewrite run_bind_emit, run_bind_gets, run_bind_lift.
  change (w_x0 (add_event (Log INFO Entered) w)) with (w_x0 w).
  destruct (lookup_lt_is_Some_2 (w_x0 w) 0) as [x0_0 H0]; [lia|].
  destruct (lookup_lt_is_Some_2 (w_x0 w) 1) as [x0_1 H1]; [lia|].
  apply getitem_Ret in H0, H1. rewrite H0, run_bind_lift, H1.
  set (w0 := add_event (Log INFO Entered) w).
  destruct (simulate_loop_quiet Tf Caf t (length t - 1) 0
              (replicate (length t) (Float64.mul Float64.one x0_0))
              (replicate (length t) (Float64.mul Float64.one x0_1)) w0 pre rest Ho)
    as (Ca' & T' & w' & Hloop & Hu' & Hc'); try done.
  - destruct (length t); [by left|right; lia].
  - by rewrite length_replicate.
  - by rewrite length_replicate.
  - destruct (simulate_loop_calls json_loads np_isnan_list np_float64_of_object odeint
                Tf Caf t (length t - 1) 0
                (replicate (length t) (Float64.mul Float64.one x0_0),
                 replicate (length t) (Float64.mul Float64.one x0_1)) w0)
      as (evs & E & _ & _ & Hret & _).
    rewrite Hloop in E, Hret |- *. cbn [fst snd] in *.
    split_and!; try done.
    + by rewrite Hc', Hw, after_idles_app.
    + rewrite (new_events_app w w' ([Log INFO Entered] ++ evs))
        by (rewrite E; subst w0; unfold add_event; cbn [w_trace];
            by rewrite <- app_assoc).
      rewrite inputs_used_app. cbn [inputs_used omap app length].
      by apply Hret.
Qed.

(** The results of two runs of the loop agree when both runs end regularly
    from worlds that agree on [x0] and on the slots of [u] still to be
    read, whatever their inbound channels hold. *)
Lemma simulate_loop_same_states Tf Caf t n : forall a CaT w1 w2 r1 r2 w1' w2',
  w_x0 w1 = w_x0 w2 ->
  (forall k, a + 1 <= k -> w_u w1 !! k = w_u w2 !! k) ->
  simulate_loop json_loads np_isnan_list np_float64_of_object odeint
    Tf Caf t (seq a n) CaT w1 = (Ret r1, w1') ->
  simulate_loop json_loads np_isnan_list np_float64_of_object odeint
    Tf Caf t (seq a n) CaT w2 = (Ret r2, w2') ->
  r1 = r2 /\ w_x0 w1' = w_x0 w2'.
Proof.
  induction n as [|n IH]; intros a [Ca T] w1 w2 r1 r2 w1' w2' Hx Hu.
  { cbn [seq simulate_loop]. rewrite !run_ret. by intros [= <- <-] [= <- <-]. }
  cbn [seq simulate_loop]. rewrite !run_bind.
  destruct (simulate_body json_loads np_isnan_list np_float64_of_object odeint
              Tf Caf t a (Ca, T) w1) as [[[Ca1 T1]|] m1] eqn:Hb1; [|done].
  destruct (simulate_body json_loads np_isnan_list np_float64_of_object odeint
              Tf Caf t a (Ca, T) w2) as [[[Ca2 T2]|] m2] eqn:Hb2; [|done].
  apply simulate_body_Ret in Hb1 as (v1 & HIP1 & HA1).
  apply simulate_body_Ret in Hb2 as (v2 & HIP2 & HA2).
  apply integrate_and_publish_Ret_world in HIP1
    as (t_i & t_i1 & u_i1 & ca & temp & Ht0 & Ht1 & Hlk & Ho & _ & -> & _ & -> & _ & Hv1).
  apply integrate_and_publish_Ret_world in HIP2
    as (t_i' & t_i1' & u_i1' & ca' & temp' & Ht0' & Ht1' & Hlk' & Ho' & _ & -> & _ & -> & _ & Hv2).
  assert (Hx1 : w_x0 v1 = <[1:=temp]> (<[0:=ca]> (w_x0 w1))) by (by rewrite Hv1).
  assert (Hu1 : w_u v1 = w_u w1) by (by rewrite Hv1).
  assert (Hx2 : w_x0 v2 = <[1:=temp']> (<[0:=ca']> (w_x0 w2))) by (by rewrite Hv2).
  assert (Hu2 : w_u v2 = w_u w2) by (by rewrite Hv2).
  clear Hv1 Hv2.
  assert (u_i1 = u_i1') as <- by (rewrite Hu in Hlk by lia; congruence).
  assert (t_i = t_i') as <- by congruence.
  assert (t_i1 = t_i1') as <- by congruence.
  rewrite Hx in Ho.
  assert (ca = ca') as <- by congruence.
  assert (temp = temp') as <- by congruence.
  pose proof (await_command_keeps_x0 json_loads np_isnan_list np_float64_of_object
                a v1) as Hk1.
  pose proof (await_command_writes json_loads np_isnan_list np_float64_of_object
                a v1) as [_ Hw1].
  rewrite HA1 in Hk1, Hw1. unfold same in Hk1. cbn [snd] in Hk1, Hw1.
  pose proof (await_command_keeps_x0 json_loads np_isnan_list np_float64_of_object
                a v2) as Hk2.
  pose proof (await_command_writes json_loads np_isnan_list np_float64_of_object
                a v2) as [_ Hw2].
  rewrite HA2 in Hk2, Hw2. unfold same in Hk2. cbn [snd] in Hk2, Hw2.
  apply IH.
  - by rewrite Hk1, Hk2, Hx1, Hx2, Hx.
  - intros k Hk. rewrite Hw1, Hw2, Hu1, Hu2 by lia. apply Hu. lia.
Qed.

(** X15: two calls of [simulate_cstr] that return, from worlds with the same
    [u] and [x0], return the same arrays and leave the same [x0], whatever
    their inbound channels hold: no command that is received changes the
    trajectory that is computed. *)
Theorem X_commands_never_change_trajectory (Tf Caf : float) (t : list float)
    (w1 w2 w1' w2' : world) (r1 r2 : list float * list float) :
  w_u w1 = w_u w2 ->
  w_x0 w1 = w_x0 w2 ->
  simulate_cstr json_loads np_isnan_list np_float64_of_object odeint Tf Caf t w1 =
    (Ret r1, w1') ->
  simulate_cstr json_loads np_isnan_list np_float64_of_object odeint Tf Caf t w2 =
    (Ret r2, w2') ->
  r1 = r2 /\ w_x0 w1' = w_x0 w2'.
Proof.
  intros Hu Hx. unfold simulate_cstr.
  rewrite !run_bind_emit, !run_bind_gets, !run_bind_lift.
  change (w_x0 (add_event (Log INFO Entered) w1)) with (w_x0 w1).
  change (w_x0 (add_event (Log INFO Entered) w2)) with (w_x0 w2).
  rewrite Hx.
  destruct (getitem (w_x0 w2) 0) as [x0_0|]; [|done].
  rewrite !run_bind_lift.
  destruct (getitem (w_x0 w2) 1) as [x0_1|]; [|done].
  apply simulate_loop_same_states.
  - done.
  - intros k _. cbn [w_u add_event]. by rewrite Hu.
Qed.

End Runs.

(** ** Every message is flushed *)

Lemma flushed_app (evs evs' : list event) :
  flushed evs -> flushed evs' -> flushed (evs ++ evs').
Proof.
  intros H H' k ca temp Hk.
  destruct (decide (k < length evs)) as [Hlt|Hge].
  - rewrite lookup_app_l in Hk by done. apply H in Hk.
    rewrite lookup_app_l; [done|]. by apply lookup_lt_Some in Hk.
  - rewrite lookup_app_r in Hk by lia. apply H' in Hk.
    rewrite lookup_app_r by lia. by replace (S k - length evs) with (S (k - length evs)) by lia.
Qed.

Lemma flushed_without_send (evs : list event) :
  Forall (fun e => forall ca temp, e <> ProducerSend ca temp) evs -> flushed evs.
Proof.
  intros F k ca temp Hk. rewrite Forall_lookup in F. by destruct (F k _ Hk ca temp).
Qed.

#[global] Instance flushes_preorder : PreOrder flushes.
Proof.
  split.
  - intros w. exists []. rewrite app_nil_r. split; [done|]. by intros k ca temp.
  - intros w1 w2 w3 (evs & E & H) (evs' & E' & H').
    exists (evs ++ evs'). split; [by rewrite E', E, app_assoc|by apply flushed_app].
Qed.

Lemma keeps_emit_flushes (e : event) :
  (forall ca temp, e <> ProducerSend ca temp) -> keeps flushes (emit e).
Proof.
  intros He w. exists [e]. split; [done|].
  apply flushed_without_send. by repeat constructor.
Qed.

Lemma keeps_modify_flushes (g : world -> world) :
  (forall w, w_trace (g w) = w_trace w) -> keeps flushes (modify g).
Proof.
  intros Hg w. exists []. cbn. rewrite Hg, app_nil_r. split; [done|]. by intros k ca temp.
Qed.

Lemma keeps_receiver_flushes {A} (m : M A) :
  keeps (grows receiver_event) m -> keeps flushes m.
Proof.
  intros Hm w. destruct (Hm w) as (evs & E & F). exists evs. split; [done|].
  apply flushed_without_send. eapply Forall_impl; [exact F|].
  intros e He ca temp ->. done.
Qed.

Lemma send_flushes ca temp : keeps flushes (send_data_to_kafka ca temp).
Proof.
  intros w. rewrite send_data_to_kafka_run. cbn [snd].
  destruct (sendable ca temp).
  - eexists. split; [reflexivity|].
    intros [|[|[|[|k]]]] ca' temp'; destruct (w_healthcheck w); by cbn.
  - exists [Log ERROR (AttemptedNaN ca temp)]. split; [done|].
    by intros [|k] ca' temp'.
Qed.

#[global] Hint Resolve send_flushes : keeps.
#[global] Hint Extern 1 (keeps flushes (emit _)) =>
  apply keeps_emit_flushes; intros ? ?; discriminate : keeps.
#[global] Hint Extern 1 (keeps flushes (modify _)) =>
  apply keeps_modify_flushes; intros ?; reflexivity : keeps.

Section Flushing.

Variable json_loads : string -> outcome pyval.
Variable np_isnan_list : list pyval -> outcome bool.
Variable np_float64_of_object : pyval -> outcome float.
Variable odeint :
  list float -> float -> float -> float -> float -> float -> outcome (float * float).

Lemma simulate_loop_flushes Tf Caf t range : forall CaT,
  keeps flushes
    (simulate_loop json_loads np_isnan_list np_float64_of_object odeint
       Tf Caf t range CaT).
Proof.
  induction range as [|i range IH]; intros CaT; cbn [simulate_loop].
  - apply keeps_ret.
  - apply keeps_bind; [|done]. unfold simulate_body. apply keeps_bind.
    + unfold integrate_and_publish. destruct CaT. keeps_auto.
    + intros CaT'. apply keeps_bind; [|intros []; apply keeps_ret].
      apply keeps_receiver_flushes, await_command_grows.
Qed.

(** X16: in a run of [simulate_cstr], however it ends, every telemetry
    message sent is followed at once by the flush of the producer. *)
Theorem X_every_message_is_flushed (Tf Caf : float) (t : list float) (w : world)
    (k : nat) (ca temp : float) :
  let w' :=
    (simulate_cstr json_loads np_isnan_list np_float64_of_object odeint Tf Caf t w).2 in
  new_events w w' !! k = Some (ProducerSend ca temp) ->
  new_events w w' !! (S k) = Some ProducerFlush.
Proof.
  cbn zeta.
  assert (H : keeps flushes
    (simulate_cstr json_loads np_isnan_list np_float64_of_object odeint Tf Caf t)).
  { unfold simulate_cstr. keeps_auto. apply simulate_loop_flushes. }
  destruct (H w) as (evs & E & Hf). rewrite (new_events_app _ _ _ E). apply Hf.
Qed.

End Flushing.

(** The first message of a run over [grid] is the sixth event, the flush the
    seventh. *)
Lemma X_every_message_is_flushed_witness :
  let w := fresh [f64 300; f64 310; f64 320] [] in
  let w' := (simulate_cstr no_json no_lists no_objects probe_solver
               (f64 350) (f64 1) grid w).2 in
  new_events w w' !! 5 = Some (ProducerSend (f64 1) (f64 310)) /\
  new_events w w' !! 6 = Some ProducerFlush.
Proof.
  cbn zeta. split; [by vm_compute|].
  apply (X_every_message_is_flushed no_json no_lists no_objects probe_solver
           (f64 350) (f64 1) grid (fresh [f64 300; f64 310; f64 320] [])
           5 (f64 1) (f64 310)).
  by vm_compute.
Defined.

(** ** The state is carried from one solver call to the next *)

Lemma states_given_app (tr tr' : list event) :
  states_given (tr ++ tr') = states_given tr ++ states_given tr'.
Proof. apply omap_app. Qed.

Lemma states_given_publish_events h ca temp :
  states_given (publish_events h ca temp) = [] /\
  inputs_used (publish_events h ca temp) = [] /\
  spans_integrated (publish_events h ca temp) = [].
Proof. unfold publish_events. by destruct (sendable ca temp), h. Qed.

Lemma receiver_events_no_call (evs : list event) :
  Forall (fun e => receiver_event e = true) evs ->
  states_given evs = [] /\ inputs_used evs = [] /\ spans_integrated evs = [].
Proof.
  intros F. split_and!; (eapply omap_none_Forall; [|exact F]); by intros [].
Qed.

Section Chain.

Variable json_loads : string -> outcome pyval.
Variable np_isnan_list : list pyval -> outcome bool.
Variable np_float64_of_object : pyval -> outcome float.
Variable odeint :
  list float -> float -> float -> float -> float -> float -> outcome (float * float).

(** Whatever its outcome, an iteration calls the solver at most once, and
    then on [x0] as it stands when the iteration begins. *)
Lemma simulate_body_states Tf Caf t i CaT w :
  exists evs,
    w_trace (simulate_body json_loads np_isnan_list np_float64_of_object odeint
               Tf Caf t i CaT w).2 = w_trace w ++ evs /\
    (states_given evs = [] \/ states_given evs = [w_x0 w]).
Proof.
  destruct CaT as [Ca T]. unfold simulate_body. rewrite run_bind.
  assert (HIP : exists evs,
    w_trace (integrate_and_publish odeint Tf Caf t i (Ca, T) w).2 = w_trace w ++ evs /\
    (states_given evs = [] \/ states_given evs = [w_x0 w])).
  { unfold integrate_and_publish.
    run_step. destruct (getitem t i) as [t_i|];
      [|exists []; rewrite app_nil_r; auto].
    run_step. destruct (getitem t (i + 1)) as [t_i1|];
      [|exists []; rewrite app_nil_r; auto].
    do 3 run_step. destruct (getitem (w_u w) (i + 1)) as [u_i1|];
      [|exists []; rewrite app_nil_r; auto].
    do 2 run_step.
    match goal with |- context [(?m0 ≫= ?f0) ?w0] => set (m := m0 ≫= f0); set (w1 := w0) end.
    assert (Hm : keeps (grows publisher_event) m) by (subst m; keeps_auto).
    destruct (Hm w1) as (evs & E & F). rewrite E.
    eexists. split; [subst w1; cbn [w_trace add_event]; by rewrite <- !app_assoc|].
    right. rewrite states_given_app. cbn.
    unfold states_given. by erewrite omap_none_Forall; [| |exact F]; [|intros []]. }
  destruct HIP as (evs & E & D).
  destruct (integrate_and_publish odeint Tf Caf t i (Ca, T) w) as [[CaT'|e] w1];
    cbn [fst snd] in *; [|by exists evs].
  rewrite run_bind.
  destruct (await_command_grows json_loads np_isnan_list np_float64_of_object i w1)
    as (evs' & E' & F').
  destruct (receiver_events_no_call _ F') as (Hs' & _).
  exists (evs ++ evs'). split.
  - revert E'.
    destruct (await_command json_loads np_isnan_list np_float64_of_object i w1)
      as [[[]|e] w2]; rewrite ?run_ret; cbn [fst snd]; intros E';
      by rewrite E', E, app_assoc.
  - by rewrite states_given_app, Hs', app_nil_r.
Qed.

Lemma simulate_loop_chain Tf Caf t n : forall a CaT w,
  exists evs,
    w_trace (simulate_loop json_loads np_isnan_list np_float64_of_object odeint
               Tf Caf t (seq a n) CaT w).2 = w_trace w ++ evs /\
    (forall x, states_given evs !! 0 = Some x -> x = w_x0 w) /\
    (forall k x x',
       states_given evs !! k = Some x -> states_given evs !! (S k) = Some x' ->
       exists t0 t1 ui1 ca temp,
         spans_integrated evs !! k = Some (t0, t1) /\
         inputs_used evs !! k = Some ui1 /\
         odeint x t0 t1 ui1 Tf Caf = Ret (ca, temp) /\
         x' = <[1 := temp]> (<[0 := ca]> x)).
Proof.
  induction n as [|n IH]; intros a CaT w; cbn [seq simulate_loop].
  { exists []. rewrite run_ret, app_nil_r. by split_and!. }
  rewrite run_bind.
  destruct (simulate_body_states Tf Caf t a CaT w) as (evs1 & E1 & D).
  destruct (simulate_body json_loads np_isnan_list np_float64_of_object odeint
              Tf Caf t a CaT w) as [[CaT'|e] w2] eqn:Hb; cbn [fst snd] in *.
  - destruct CaT as [Ca T], CaT' as [Ca1 T1].
    apply simulate_body_Ret in Hb as (w1 & HIP & HA).
    apply integrate_and_publish_Ret_world in HIP
      as (t_i & t_i1 & u_i1 & ca & temp & _ & _ & _ & Ho & _ & _ & _ & _ & _ & Hw1).
    destruct (await_command_grows json_loads np_isnan_list np_float64_of_object a w1)
      as (evs2 & E2 & F2).
    pose proof (await_command_keeps_x0 json_loads np_isnan_list np_float64_of_object
                  a w1) as Hk.
    rewrite HA in E2, Hk. unfold same in Hk. cbn [snd] in E2, Hk.
    destruct (receiver_events_no_call _ F2) as (Hs2 & Hi2 & Hp2).
    destruct (states_given_publish_events (w_healthcheck w) ca temp) as (Hs1 & Hi1 & Hp1).
    destruct (IH (S a) (Ca1, T1) w2) as (evs3 & E3 & Hfirst & Hnext).
    assert (Hx2 : w_x0 w2 = <[1:=temp]> (<[0:=ca]> (w_x0 w))) by (by rewrite Hk, Hw1).
    exists (([Log INFO (CallingOdeint a (w_x0 w) u_i1 Tf Caf);
              Odeint (w_x0 w) t_i t_i1 u_i1 Tf Caf;
              Log INFO (IterationResult a ca temp u_i1);
              Log INFO SendingData] ++
             publish_events (w_healthcheck w) ca temp) ++ evs2 ++ evs3).
    rewrite !states_given_app, !inputs_used_app, !spans_integrated_app.
    rewrite Hs1, Hi1, Hp1, Hs2, Hi2, Hp2. cbn [app states_given inputs_used spans_integrated omap].
    split_and!.
    + rewrite E3, E2, Hw1. cbn [w_trace]. by rewrite <- !app_assoc.
    + by intros x [= <-].
    + intros [|k] x x'; cbn.
      * intros [= <-] Hx'. apply Hfirst in Hx'. subst x'.
        exists t_i, t_i1, u_i1, ca, temp. by rewrite Hx2.
      * apply Hnext.
  - exists evs1. split; [done|].
    destruct D as [HD|HD]; rewrite HD; split.
    + intros x Hx. cbn in Hx. discriminate Hx.
    + intros k x x' Hx. cbn in Hx. discriminate Hx.
    + intros x Hx. cbn in Hx. by injection Hx as <-.
    + intros k x x' _ Hx. cbn in Hx. discriminate Hx.
Qed.

(** X17: in a run of [simulate_cstr], however it ends, the first solver call
    is given the caller's [x0], and each later call is given the state the
    call before it has returned: [x0] with that result in its first two
    entries. *)
Theorem X_state_is_carried_forward (Tf Caf : float) (t : list float) (w : world) :
  let w' :=
    (simulate_cstr json_loads np_isnan_list np_float64_of_object odeint Tf Caf t w).2 in
  let evs := new_events w w' in
  (forall x, states_given evs !! 0 = Some x -> x = w_x0 w) /\
  (forall k x x',
     states_given evs !! k = Some x -> states_given evs !! (S k) = Some x' ->
     exists t0 t1 ui1 ca temp,
       spans_integrated evs !! k = Some (t0, t1) /\
       inputs_used evs !! k = Some ui1 /\
       odeint x t0 t1 ui1 Tf Caf = Ret (ca, temp) /\
       x' = <[1 := temp]> (<[0 := ca]> x)).
Proof.
  cbn zeta. unfold simulate_cstr.
  rewrite run_bind_emit, run_bind_gets, run_bind_lift.
  assert (Hstop : forall e : exn,
    new_events w (Raise e : outcome (list float * list float),
                  add_event (Log INFO Entered) w).2 = [Log INFO Entered]).
  { intros e. by apply new_events_app. }
  destruct (getitem _ 0) as [x0_0|e]; [|by rewrite Hstop].
  rewrite run_bind_lift.
  destruct (getitem _ 1) as [x0_1|e]; [|by rewrite Hstop].
  destruct (simulate_loop_chain Tf Caf t (length t - 1) 0
              (replicate (length t) (Float64.mul Float64.one x0_0),
               replicate (length t) (Float64.mul Float64.one x0_1))
              (add_event (Log INFO Entered) w)) as (evs & E & Hfirst & Hnext).
  rewrite (new_events_app _ _ ([Log INFO Entered] ++ evs))
    by (rewrite E; unfold add_event; cbn [w_trace]; by rewrite <- app_assoc).
  rewrite states_given_app, inputs_used_app, spans_integrated_app.
  cbn [app states_given inputs_used spans_integrated omap].
  by split.
Qed.

End Chain.

(** The run over [grid]: the second call starts from what the first has
    returned. *)
Lemma X_state_is_carried_forward_witness :
  let w := fresh [f64 300; f64 310; f64 320] [] in
  let w' := (simulate_cstr no_json no_lists no_objects probe_solver
               (f64 350) (f64 1) grid w).2 in
  states_given (new_events w w') = [[f64 1; f64 324]; [f64 1; f64 310]] /\
  exists t0 t1 ui1 ca temp,
    spans_integrated (new_events w w') !! 0 = Some (t0, t1) /\
    inputs_used (new_events w w') !! 0 = Some ui1 /\
    probe_solver [f64 1; f64 324] t0 t1 ui1 (f64 350) (f64 1) = Ret (ca, temp) /\
    [f64 1; f64 310] = <[1 := temp]> (<[0 := ca]> [f64 1; f64 324]).
Proof.
  cbn zeta. split; [by vm_compute|].
  apply (proj2 (X_state_is_carried_forward no_json no_lists no_objects probe_solver
                  (f64 350) (f64 1) grid (fresh [f64 300; f64 310; f64 320] [])) 0).
  - by vm_compute.
  - by vm_compute.
Defined.

(** ** A decoder that fails *)

Section DecoderFurther.

Variable json_loads : string -> outcome pyval.
Variable np_isnan_list : list pyval -> outcome bool.

(** X18: a [str] message on which [json.loads] raises an exception that the
    clause of line 61 does not name -- a RecursionError, a ValueError that is
    no JSONDecodeError -- makes the call raise that exception instead of
    skipping the message; the message is consumed, what follows it stays
    pending. *)
Theorem X_receive_decoder_failure (s : string) (e : exn) (rest : list inbound)
    (w : world) :
  json_loads s = Raise e ->
  caught e = false ->
  let run := receive_tc_from_kafka json_loads np_isnan_list
               (set_consumer (Record (PStr s) :: rest) w) in
  run.1 = Raise e /\ w_consumer run.2 = rest.
Proof.
  intros Hs He. cbn zeta.
  unfold receive_tc_from_kafka. rewrite run_bind_emit, run_bind.
  cbn [seq attempts]. unfold for_message_in_consumer.
  rewrite run_bind, run_bind_gets. cbn [w_consumer add_event set_consumer poll_messages].
  rewrite run_bind_modify, run_bind.
  set (w1 := set_consumer rest _).
  pose proof (process_message_verdict json_loads np_isnan_list (PStr s) w1) as Hr.
  pose proof (process_message_keeps_consumer json_loads np_isnan_list (PStr s) w1) as Hc.
  unfold verdict in Hr. rewrite Hs, He in Hr.
  destruct (process_message json_loads np_isnan_list (PStr s) w1) as [r w2].
  cbn [fst snd] in *. subst r. done.
Qed.

End DecoderFurther.

(** ** The further properties on worked runs *)

(** A caller's [x0] with one entry. *)
Lemma X_simulate_short_x0_raises_witness :
  let w := World [] false [f64 300; f64 300; f64 300] [f64 1] [] in
  simulate_cstr no_json no_lists no_objects probe_solver (f64 350) (f64 1) grid w =
    (Raise IndexError, add_event (Log INFO Entered) w).
Proof.
  cbn zeta.
  apply (X_simulate_short_x0_raises no_json no_lists no_objects probe_solver).
  cbn [w_x0 length]. lia.
Defined.

(** A grid of one point. *)
Lemma X_simulate_trivial_grid_witness :
  let w := fresh [f64 300] [command (PFloat (f64 305))] in
  simulate_cstr no_json no_lists no_objects probe_solver (f64 350) (f64 1) [f64 0] w =
    (Ret ([Float64.mul Float64.one (f64 1)], [Float64.mul Float64.one (f64 324)]),
     add_event (Log INFO Entered) w).
Proof.
  cbn zeta.
  apply (X_simulate_trivial_grid no_json no_lists no_objects probe_solver
           (f64 350) (f64 1) [f64 0]
           (fresh [f64 300] [command (PFloat (f64 305))]) (f64 1) (f64 324)).
  - cbn [length]. lia.
  - reflexivity.
  - reflexivity.
Defined.

(** An array [u] of one slot. *)
Lemma X_iteration_short_u_raises_witness :
  let w := fresh [f64 300] [] in
  simulate_body no_json no_lists no_objects probe_solver (f64 350) (f64 1) grid 0
    (replicate 3 (f64 1), replicate 3 (f64 324)) w = (Raise IndexError, w).
Proof.
  cbn zeta.
  apply (X_iteration_short_u_raises no_json no_lists no_objects probe_solver).
  reflexivity.
Defined.

(** A solver that fails in the first iteration. *)
Lemma X_iteration_solver_failure_witness :
  let w := fresh [f64 300; f64 310; f64 320] [command (PFloat (f64 305))] in
  let run := simulate_body no_json no_lists no_objects failing_solver
               (f64 350) (f64 1) grid 0
               (replicate 3 (f64 1), replicate 3 (f64 324)) w in
  run.1 = Raise RuntimeError /\ w_x0 run.2 = [f64 1; f64 324] /\
  sent (new_events w run.2) = [].
Proof.
  cbn zeta.
  destruct (X_iteration_solver_failure no_json no_lists no_objects failing_solver
              (f64 350) (f64 1) grid 0 (replicate 3 (f64 1), replicate 3 (f64 324))
              (fresh [f64 300; f64 310; f64 320] [command (PFloat (f64 305))])
              (f64 0) (f64 1) (f64 310) RuntimeError)
    as (H1 & H2 & _ & _ & _ & H3); try reflexivity.
  split_and!; [exact H1|exact H2|by rewrite H3].
Defined.

(** The command 305, an int, accepted in iteration 0. *)
Lemma X_iteration_stores_command_witness :
  let w := fresh [f64 300; f64 310; f64 320] [command (PInt 305)] in
  w_u (simulate_body no_json no_lists no_objects probe_solver (f64 350) (f64 1) grid 0
         (replicate 3 (f64 1), replicate 3 (f64 324)) w).2 =
    [f64 300; f64 305; f64 320].
Proof.
  cbn zeta.
  destruct (X_iteration_stores_command no_json no_lists no_objects probe_solver
              (f64 350) (f64 1) grid 0
              (replicate 3 (f64 1), replicate 3 (f64 324))
              ([f64 1; f64 1; f64 1], [f64 324; f64 310; f64 324])
              (fresh [f64 300; f64 310; f64 320] [command (PInt 305)])
              (integrate_and_publish probe_solver (f64 350) (f64 1) grid 0
                 (replicate 3 (f64 1), replicate 3 (f64 324))
                 (fresh [f64 300; f64 310; f64 320] [command (PInt 305)])).2
              (PInt 305) (f64 305)) as [_ H].
  - by vm_compute.
  - by vm_compute.
  - discriminate.
  - by vm_compute.
  - exact H.
Defined.

(** A run that publishes twice with the marker in place. *)
Lemma X_marker_not_rewritten_witness :
  let w := set_healthcheck true (fresh [f64 300; f64 310; f64 320] []) in
  length (sent (new_events w
            (simulate_cstr no_json no_lists no_objects probe_solver
               (f64 350) (f64 1) grid w).2)) = 2 /\
  marker_writes (new_events w
    (simulate_cstr no_json no_lists no_objects probe_solver
       (f64 350) (f64 1) grid w).2) = 0.
Proof.
  cbn zeta. split; [by vm_compute|].
  apply (X_marker_not_rewritten no_json no_lists no_objects probe_solver
           (f64 350) (f64 1) grid
           (set_healthcheck true (fresh [f64 300; f64 310; f64 320] []))).
  reflexivity.
Defined.

(** The run over [grid]: arrays of three entries that begin with the initial
    state, and the two later states published. *)
Lemma X_simulate_returns_grid_arrays_witness :
  let w := fresh [f64 300; f64 310; f64 320] [] in
  match (simulate_cstr no_json no_lists no_objects probe_solver
           (f64 350) (f64 1) grid w).1 with
  | Ret (Ca, T) => length Ca = 3 /\ length T = 3
  | Raise _ => False
  end.
Proof.
  cbn zeta.
  destruct (simulate_cstr no_json no_lists no_objects probe_solver
              (f64 350) (f64 1) grid (fresh [f64 300; f64 310; f64 320] []))
    as [[[Ca T]|e] w'] eqn:E; cbn [fst].
  - destruct (X_simulate_returns_grid_arrays no_json no_lists no_objects probe_solver
                (f64 350) (f64 1) grid Ca T _ w' E) as (H1 & H2 & _).
    split; [exact H1|exact H2].
  - vm_compute in E. discriminate E.
Defined.

Lemma X_simulate_publishes_states_witness :
  let w := fresh [f64 300; f64 310; f64 320] [] in
  let run := simulate_cstr no_json no_lists no_objects probe_solver
               (f64 350) (f64 1) grid w in
  match run.1 with
  | Ret (Ca, T) => sent (new_events w run.2) = publishable (drop 1 Ca) (drop 1 T)
  | Raise _ => False
  end /\
  sent (new_events w run.2) = [(f64 1, f64 310); (f64 2, f64 320)].
Proof.
  cbn zeta. split; [|by vm_compute].
  destruct (simulate_cstr no_json no_lists no_objects probe_solver
              (f64 350) (f64 1) grid (fresh [f64 300; f64 310; f64 320] []))
    as [[[Ca T]|e] w'] eqn:E; cbn [fst snd].
  - exact (X_simulate_publishes_states no_json no_lists no_objects probe_solver
             (f64 350) (f64 1) grid Ca T _ w' E).
  - vm_compute in E. discriminate E.
Defined.

(** The run over [grid] on a channel of ten idle timeouts, a skipped message
    among them and a command behind them. *)
Lemma X_simulate_quiet_run_witness :
  let w := fresh [f64 300; f64 310; f64 320]
             (Record PNone :: replicate 10 Idle ++ [command (PFloat (f64 305))]) in
  let run := simulate_cstr no_json no_lists no_objects probe_solver
               (f64 350) (f64 1) grid w in
  is_ret run.1 = true /\ w_u run.2 = [f64 300; f64 310; f64 320] /\
  w_consumer run.2 = [command (PFloat (f64 305))] /\
  length (inputs_used (new_events w run.2)) = 2.
Proof.
  cbn zeta.
  apply (X_simulate_quiet_run no_json no_lists no_objects probe_solver
           (f64 350) (f64 1) grid
           (fresh [f64 300; f64 310; f64 320]
              (Record PNone :: replicate 10 Idle ++ [command (PFloat (f64 305))]))
           (Record PNone :: replicate 10 Idle) [command (PFloat (f64 305))]).
  - intros x0 t0 t1 ui1. reflexivity.
  - cbn [length w_u fresh grid]. lia.
  - cbn [length w_x0 fresh]. lia.
  - reflexivity.
  - apply Forall_cons; split; [by left|].
    apply Forall_replicate. exact I.
  - unfold grid. cbn [length replicate count_idle]. lia.
Defined.

(** The run over [grid] with and without the command 305: the same arrays. *)
Lemma X_commands_never_change_trajectory_witness :
  (simulate_cstr no_json no_lists no_objects probe_solver (f64 350) (f64 1) grid
     (fresh [f64 300; f64 310; f64 320] [command (PFloat (f64 305))])).1 =
  (simulate_cstr no_json no_lists no_objects probe_solver (f64 350) (f64 1) grid
     (fresh [f64 300; f64 310; f64 320] [])).1.
Proof.
  destruct (simulate_cstr no_json no_lists no_objects probe_solver (f64 350) (f64 1) grid
              (fresh [f64 300; f64 310; f64 320] [command (PFloat (f64 305))]))
    as [[r1|e1] w1'] eqn:E1; [|vm_compute in E1; discriminate E1].
  destruct (simulate_cstr no_json no_lists no_objects probe_solver (f64 350) (f64 1) grid
              (fresh [f64 300; f64 310; f64 320] []))
    as [[r2|e2] w2'] eqn:E2; [|vm_compute in E2; discriminate E2].
  cbn [fst]. f_equal.
  eapply (X_commands_never_change_trajectory no_json no_lists no_objects probe_solver
            (f64 350) (f64 1) grid _ _ w1' w2' r1 r2); [| |exact E1|exact E2];
    reflexivity.
Defined.

(** A text of brackets on which the decoder gives up. *)
Lemma X_receive_decoder_failure_witness :
  let run := receive_tc_from_kafka deep_json no_lists
               (set_consumer [Record (PStr "[[[["); Idle] (fresh [] [])) in
  run.1 = Raise RecursionError /\ w_consumer run.2 = [Idle].
Proof.
  apply (X_receive_decoder_failure deep_json no_lists "[[[[" RecursionError).
  - reflexivity.
  - reflexivity.
Defined.
